(** * Re-imaginator: the generation-session workflow of [App]

    A shallow embedding of the handlers of the React component [App]
    (src/index.tsx, and its aspect-ratio build src/unnamed/part_000) and
    the properties of the session they implement: the draft of at most
    three base images, the single outbound generation call, the bounded
    history and the life cycle of preview object URLs.

    React state is a record; a handler is a computation over the session
    that reads the state variables of the render in which it was created
    (its closure, [snap]) and queues updates on the current state.  The
    two [async] handlers are split at their [await]: the first half
    registers a continuation, the second half runs when the browser
    settles the awaited promise.  Rendering and styles are left out, and
    so is [handleDownload], which only touches the document. *)

From Stdlib Require Import ZArith String Ascii List Lia.
From stdpp Require Import base tactics option list strings pretty gmap.

Set Default Proof Using "Type".

(** ** JavaScript values used by the handlers *)

(** [File]: the name, the declared MIME type, and the base64 payload that
    [FileReader.readAsDataURL] yields for the contents (the part of
    [reader.result] that [fileToGenerativePart] selects with
    [.split(',')[1]]). *)
Record File := mkFile {
  file_name : string;
  file_type : string;
  file_base64 : string
}.

(** [Blob]: what [response.blob()] resolves to in [handleImprovise]. *)
Record Blob := mkBlob {
  blob_type : string;
  blob_base64 : string
}.

(** A value caught by [catch (err)]: an [Error] instance with its
    [message], a string (as after [throw "text"] or a promise rejected
    with a string), or any other thrown value. *)
Inductive Thrown :=
  | ErrorObject (message : string)
  | ThrownString (text : string)
  | OtherValue.

(** [type AspectRatio = '1:1' | '16:9' | '9:16'] (part_000, line 6). *)
Inductive AspectRatio := Ratio_1_1 | Ratio_16_9 | Ratio_9_16.

Definition ratioText (r : AspectRatio) : string :=
  match r with
  | Ratio_1_1 => "1:1"
  | Ratio_16_9 => "16:9"
  | Ratio_9_16 => "9:16"
  end.

Inductive Tab := generator | history_tab.
Inductive Theme := light | dark.

(** The two builds of the component under src/. *)
Inductive Build := ClassicBuild | AspectRatioBuild.

(** [type HistoryItem].  [addr] is the identity of the JavaScript object:
    every evaluation of the object literal in [handleSubmit] yields a new
    object, and arrays hold references.  [aspectRatio] is present in the
    aspect-ratio build only. *)
Module HistoryItem.
Record t := mk {
  addr : nat;
  id : string;
  baseImagePreviews : list string;
  prompt : string;
  generatedImage : string;
  seed : string;
  aspectRatio : option AspectRatio
}.
End HistoryItem.

(** The shapes of @google/genai that [handleSubmit] touches. *)
Module GenAI.
Record InlineData := mkInlineData {
  data : string;
  mimeType : string
}.

Record Part := mkPart {
  text : option string;
  inlineData : option InlineData
}.

Record Content := mkContent { parts : option (list Part) }.
Record Candidate := mkCandidate { content : option Content }.
Record Response := mkResponse { candidates : option (list Candidate) }.

Inductive Modality := IMAGE | TEXT.

(** The argument of [ai.models.generateContent]. *)
Record Request := mkRequest {
  model : string;
  contents : list Part;
  responseModalities : list Modality
}.
End GenAI.

(** ** The state of [App] *)

Record State := mkState {
  baseImages : list File;
  baseImagePreviews : list string;
  prompt : string;
  seed : string;
  aspectRatio : AspectRatio;
  generatedImage : string;
  isLoading : bool;
  error : string;
  isDragging : bool;
  history : list HistoryItem.t;
  activeTab : Tab;
  theme : Theme;
  selectedHistoryItem : option HistoryItem.t
}.

(** The [useState] initial values. *)
Definition initialState : State :=
  {| baseImages := []; baseImagePreviews := []; prompt := ""; seed := "";
     aspectRatio := Ratio_1_1; generatedImage := ""; isLoading := false;
     error := ""; isDragging := false; history := [];
     activeTab := generator; theme := dark; selectedHistoryItem := None |}.

(** ** The browser around the component *)

(** An argument of [console.error]. *)
Inductive Logged :=
  | LoggedText (s : string)
  | LoggedValue (err : Thrown).


(** [objectURLs] is the blob URL store ([URL.createObjectURL] adds an
    entry, [URL.revokeObjectURL] removes it); [urlsIssued] numbers the
    URLs handed out so far; [objectsAllocated] numbers the history
    objects created so far; [sentRequests] lists the calls of
    [generateContent], oldest first; [consoleErrors] lists the calls of
    [console.error] with their arguments. *)
Record Browser := mkBrowser {
  objectURLs : gmap string File;
  urlsIssued : nat;
  objectsAllocated : nat;
  sentRequests : list GenAI.Request;
  consoleErrors : list (list Logged)
}.

Definition initialBrowser : Browser :=
  {| objectURLs := ∅; urlsIssued := 0; objectsAllocated := 0;
     sentRequests := []; consoleErrors := [] |}.

(** A promise a handler is suspended on, with the closure of the handler. *)
Inductive Pending :=
  | GenerateContentCall (snap : State)
  | FetchCall (snap : State) (imageUrl : string).

Record Session := mkSession {
  ui : State;
  browser : Browser;
  pending : list Pending
}.

Definition initialSession : Session :=
  {| ui := initialState; browser := initialBrowser; pending := [] |}.

(** ** Handler computations *)

Definition Eff (A : Type) : Type := Session → A * Session.

Definition ret {A} (x : A) : Eff A := λ σ, (x, σ).

Definition bind {A B} (m : Eff A) (k : A → Eff B) : Eff B :=
  λ σ, let (x, σ') := m σ in k x σ'.

Declare Scope eff_scope.
Delimit Scope eff_scope with eff.
Bind Scope eff_scope with Eff.

Notation "x <- m ;; k" := (bind m (λ x, k))
  (at level 100, m at next level, right associativity) : eff_scope.
Notation "m ;; k" := (bind m (λ _, k))
  (at level 100, right associativity) : eff_scope.

Definition exec {A} (m : Eff A) (σ : Session) : Session := (m σ).2.

(** A state setter called with an updater function. *)
Definition modifyState (f : State → State) : Eff unit :=
  λ σ, (tt, {| ui := f (ui σ); browser := browser σ; pending := pending σ |}).

Definition modifyBrowser (f : Browser → Browser) : Eff unit :=
  λ σ, (tt, {| ui := ui σ; browser := f (browser σ); pending := pending σ |}).

Definition getState : Eff State := λ σ, (ui σ, σ).
Definition getBrowser : Eff Browser := λ σ, (browser σ, σ).

Definition suspend (p : Pending) : Eff unit :=
  λ σ, (tt, {| ui := ui σ; browser := browser σ; pending := pending σ ++ [p] |}).

(** ** The [useState] setters

    One function per field; [setX v] is the call [setX(v)], and
    [setXWith f] the call [setX(prev => f(prev))]. *)

Definition withBaseImages (f : list File → list File) (s : State) : State :=
  {| baseImages := f (baseImages s); baseImagePreviews := baseImagePreviews s;
     prompt := prompt s; seed := seed s; aspectRatio := aspectRatio s;
     generatedImage := generatedImage s; isLoading := isLoading s;
     error := error s; isDragging := isDragging s; history := history s;
     activeTab := activeTab s; theme := theme s;
     selectedHistoryItem := selectedHistoryItem s |}.

Definition withBaseImagePreviews (f : list string → list string) (s : State) : State :=
  {| baseImages := baseImages s; baseImagePreviews := f (baseImagePreviews s);
     prompt := prompt s; seed := seed s; aspectRatio := aspectRatio s;
     generatedImage := generatedImage s; isLoading := isLoading s;
     error := error s; isDragging := isDragging s; history := history s;
     activeTab := activeTab s; theme := theme s;
     selectedHistoryItem := selectedHistoryItem s |}.

Definition withPrompt (v : string) (s : State) : State :=
  {| baseImages := baseImages s; baseImagePreviews := baseImagePreviews s;
     prompt := v; seed := seed s; aspectRatio := aspectRatio s;
     generatedImage := generatedImage s; isLoading := isLoading s;
     error := error s; isDragging := isDragging s; history := history s;
     activeTab := activeTab s; theme := theme s;
     selectedHistoryItem := selectedHistoryItem s |}.

Definition withSeed (v : string) (s : State) : State :=
  {| baseImages := baseImages s; baseImagePreviews := baseImagePreviews s;
     prompt := prompt s; seed := v; aspectRatio := aspectRatio s;
     generatedImage := generatedImage s; isLoading := isLoading s;
     error := error s; isDragging := isDragging s; history := history s;
     activeTab := activeTab s; theme := theme s;
     selectedHistoryItem := selectedHistoryItem s |}.

Definition withAspectRatio (v : AspectRatio) (s : State) : State :=
  {| baseImages := baseImages s; baseImagePreviews := baseImagePreviews s;
     prompt := prompt s; seed := seed s; aspectRatio := v;
     generatedImage := generatedImage s; isLoading := isLoading s;
     error := error s; isDragging := isDragging s; history := history s;
     activeTab := activeTab s; theme := theme s;
     selectedHistoryItem := selectedHistoryItem s |}.

Definition withGeneratedImage (v : string) (s : State) : State :=
  {| baseImages := baseImages s; baseImagePreviews := baseImagePreviews s;
     prompt := prompt s; seed := seed s; aspectRatio := aspectRatio s;
     generatedImage := v; isLoading := isLoading s;
     error := error s; isDragging := isDragging s; history := history s;
     activeTab := activeTab s; theme := theme s;
     selectedHistoryItem := selectedHistoryItem s |}.

Definition withIsLoading (v : bool) (s : State) : State :=
  {| baseImages := baseImages s; baseImagePreviews := baseImagePreviews s;
     prompt := prompt s; seed := seed s; aspectRatio := aspectRatio s;
     generatedImage := generatedImage s; isLoading := v;
     error := error s; isDragging := isDragging s; history := history s;
     activeTab := activeTab s; theme := theme s;
     selectedHistoryItem := selectedHistoryItem s |}.

Definition withError (v : string) (s : State) : State :=
  {| baseImages := baseImages s; baseImagePreviews := baseImagePreviews s;
     prompt := prompt s; seed := seed s; aspectRatio := aspectRatio s;
     generatedImage := generatedImage s; isLoading := isLoading s;
     error := v; isDragging := isDragging s; history := history s;
     activeTab := activeTab s; theme := theme s;
     selectedHistoryItem := selectedHistoryItem s |}.

Definition withIsDragging (v : bool) (s : State) : State :=
  {| baseImages := baseImages s; baseImagePreviews := baseImagePreviews s;
     prompt := prompt s; seed := seed s; aspectRatio := aspectRatio s;
     generatedImage := generatedImage s; isLoading := isLoading s;
     error := error s; isDragging := v; history := history s;
     activeTab := activeTab s; theme := theme s;
     selectedHistoryItem := selectedHistoryItem s |}.

Definition withHistory (f : list HistoryItem.t → list HistoryItem.t) (s : State) : State :=
  {| baseImages := baseImages s; baseImagePreviews := baseImagePreviews s;
     prompt := prompt s; seed := seed s; aspectRatio := aspectRatio s;
     generatedImage := generatedImage s; isLoading := isLoading s;
     error := error s; isDragging := isDragging s; history := f (history s);
     activeTab := activeTab s; theme := theme s;
     selectedHistoryItem := selectedHistoryItem s |}.

Definition withActiveTab (v : Tab) (s : State) : State :=
  {| baseImages := baseImages s; baseImagePreviews := baseImagePreviews s;
     prompt := prompt s; seed := seed s; aspectRatio := aspectRatio s;
     generatedImage := generatedImage s; isLoading := isLoading s;
     error := error s; isDragging := isDragging s; history := history s;
     activeTab := v; theme := theme s;
     selectedHistoryItem := selectedHistoryItem s |}.

Definition withTheme (f : Theme → Theme) (s : State) : State :=
  {| baseImages := baseImages s; baseImagePreviews := baseImagePreviews s;
     prompt := prompt s; seed := seed s; aspectRatio := aspectRatio s;
     generatedImage := generatedImage s; isLoading := isLoading s;
     error := error s; isDragging := isDragging s; history := history s;
     activeTab := activeTab s; theme := f (theme s);
     selectedHistoryItem := selectedHistoryItem s |}.

Definition withSelectedHistoryItem (v : option HistoryItem.t) (s : State) : State :=
  {| baseImages := baseImages s; baseImagePreviews := baseImagePreviews s;
     prompt := prompt s; seed := seed s; aspectRatio := aspectRatio s;
     generatedImage := generatedImage s; isLoading := isLoading s;
     error := error s; isDragging := isDragging s; history := history s;
     activeTab := activeTab s; theme := theme s;
     selectedHistoryItem := v |}.

Definition setBaseImages (v : list File) : Eff unit := modifyState (withBaseImages (λ _, v)).
Definition setBaseImagesWith (f : list File → list File) : Eff unit := modifyState (withBaseImages f).
Definition setBaseImagePreviews (v : list string) : Eff unit := modifyState (withBaseImagePreviews (λ _, v)).
Definition setPrompt (v : string) : Eff unit := modifyState (withPrompt v).
Definition setSeed (v : string) : Eff unit := modifyState (withSeed v).
Definition setAspectRatio (v : AspectRatio) : Eff unit := modifyState (withAspectRatio v).
Definition setGeneratedImage (v : string) : Eff unit := modifyState (withGeneratedImage v).
Definition setIsLoading (v : bool) : Eff unit := modifyState (withIsLoading v).
Definition setError (v : string) : Eff unit := modifyState (withError v).
Definition setIsDragging (v : bool) : Eff unit := modifyState (withIsDragging v).
Definition setHistory (v : list HistoryItem.t) : Eff unit := modifyState (withHistory (λ _, v)).
Definition setHistoryWith (f : list HistoryItem.t → list HistoryItem.t) : Eff unit := modifyState (withHistory f).
Definition setActiveTab (v : Tab) : Eff unit := modifyState (withActiveTab v).
Definition setThemeWith (f : Theme → Theme) : Eff unit := modifyState (withTheme f).
Definition setSelectedHistoryItem (v : option HistoryItem.t) : Eff unit := modifyState (withSelectedHistoryItem v).

Definition setBaseImagePreviewsWith (f : list string → list string) : Eff unit :=
  modifyState (withBaseImagePreviews f).

(** [setBaseImagePreviews(prev => { ...; return newPreviews; })]: an updater
    whose body also acts on the browser ([handleRemoveImage]). *)
Definition setBaseImagePreviewsWithEff (f : list string → Eff (list string)) : Eff unit :=
  (prev <- getState ;;
   newPreviews <- f (baseImagePreviews prev) ;;
   modifyState (withBaseImagePreviews (λ _, newPreviews)))%eff.

(** ** Browser and language primitives *)

(** The object URL with serial number [n]. *)
Definition blobURL (n : nat) : string := "blob:" +:+ pretty n.

(** [URL.createObjectURL(file)]: registers the file under a URL that was
    never handed out before and returns the URL. *)
Definition createObjectURL (file : File) : Eff string :=
  (b <- getBrowser ;;
   let url := blobURL (urlsIssued b) in
   modifyBrowser (λ b, {| objectURLs := <[url := file]> (objectURLs b);
                          urlsIssued := S (urlsIssued b);
                          objectsAllocated := objectsAllocated b;
                          sentRequests := sentRequests b;
                          consoleErrors := consoleErrors b |}) ;;
   ret url)%eff.

(** [URL.revokeObjectURL(url)].  The argument is [None] when the source
    passes [undefined] (an array read out of range): the browser turns it
    into a string that names no registered URL, and nothing is removed. *)
Definition revokeObjectURL (url : option string) : Eff unit :=
  match url with
  | Some u =>
      modifyBrowser (λ b, {| objectURLs := delete u (objectURLs b);
                             urlsIssued := urlsIssued b;
                             objectsAllocated := objectsAllocated b;
                             sentRequests := sentRequests b;
                             consoleErrors := consoleErrors b |})
  | None => ret tt
  end.

(** Evaluating an object literal: the identity of the new object. *)
Definition allocObject : Eff nat :=
  (b <- getBrowser ;;
   modifyBrowser (λ b, {| objectURLs := objectURLs b;
                          urlsIssued := urlsIssued b;
                          objectsAllocated := S (objectsAllocated b);
                          sentRequests := sentRequests b;
                          consoleErrors := consoleErrors b |}) ;;
   ret (objectsAllocated b))%eff.

(** [ai.models.generateContent(request)] leaving the page. *)
Definition sendRequest (r : GenAI.Request) : Eff unit :=
  modifyBrowser (λ b, {| objectURLs := objectURLs b;
                         urlsIssued := urlsIssued b;
                         objectsAllocated := objectsAllocated b;
                         sentRequests := sentRequests b ++ [r];
                         consoleErrors := consoleErrors b |}).

(** [console.error(...args)]. *)
Definition consoleError (args : list Logged) : Eff unit :=
  modifyBrowser (λ b, {| objectURLs := objectURLs b;
                         urlsIssued := urlsIssued b;
                         objectsAllocated := objectsAllocated b;
                         sentRequests := sentRequests b;
                         consoleErrors := consoleErrors b ++ [args] |}).

(** [array.forEach(f)] and [array.map(f)] for a callback with effects. *)
Fixpoint forEach {A} (f : A → Eff unit) (l : list A) : Eff unit :=
  match l with
  | [] => ret tt
  | x :: l' => (f x ;; forEach f l')%eff
  end.

Fixpoint mapEff {A B} (f : A → Eff B) (l : list A) : Eff (list B) :=
  match l with
  | [] => ret []
  | x :: l' => (y <- f x ;; ys <- mapEff f l' ;; ret (y :: ys))%eff
  end.

(** [array.slice(0, end)]: a negative [end] counts from the end of the
    array. *)
Definition slice0 {A} (end_ : Z) (l : list A) : list A :=
  if (end_ <? 0)%Z
  then take (Z.to_nat (Z.max (Z.of_nat (length l) + end_) 0)) l
  else take (Z.to_nat end_) l.

(** [array.filter((_, index) => keep(index))]. *)
Fixpoint filterIndexFrom {A} (k : Z) (keep : Z → bool) (l : list A) : list A :=
  match l with
  | [] => []
  | x :: l' =>
      if keep k then x :: filterIndexFrom (k + 1) keep l'
      else filterIndexFrom (k + 1) keep l'
  end.

Definition filterIndex {A} (keep : Z → bool) (l : list A) : list A :=
  filterIndexFrom 0 keep l.

Arguments filterIndex : simpl never.

(** [array[i]] for a number [i]: [undefined] outside the array. *)
Definition at_ {A} (l : list A) (i : Z) : option A :=
  if (i <? 0)%Z then None else l !! Z.to_nat i.

(** [!s] for a string [s]. *)
Definition isEmptyString (s : string) : bool :=
  match s with EmptyString => true | String _ _ => false end.

(** What the browser hands back when an awaited promise settles. *)
Inductive SubmitOutcome :=
  | ThrewBeforeCall (err : Thrown)
  | CallRejected (err : Thrown)
  | CallResponded (response : GenAI.Response).

Inductive FetchOutcome :=
  | Fetched (blob : Blob)
  | FetchThrew (err : Thrown).

Definition LF : string := String "010"%char "".

(** ** The handlers of [App] *)

Section App.

Variable build : Build.

Definition fileToGenerativePart (file : File) : GenAI.Part :=
  {| GenAI.text := None;
     GenAI.inlineData :=
       Some {| GenAI.data := file_base64 file;
               GenAI.mimeType := file_type file |} |}.

Definition processFiles (snap : State) (files : option (list File)) : Eff unit :=
  match files with
  | None => ret tt
  | Some files =>
      let newFiles := slice0 (3 - Z.of_nat (length (baseImages snap))) files in
      if decide (length newFiles = 0) then ret tt
      else
        (setBaseImagesWith (λ prev, prev ++ newFiles) ;;
         newPreviews <- mapEff createObjectURL newFiles ;;
         setBaseImagePreviewsWith (λ prev, prev ++ newPreviews) ;;
         setGeneratedImage "" ;;
         setError "")%eff
  end.

Definition handleImageChange (snap : State) (files : option (list File)) : Eff unit :=
  processFiles snap files.

Definition handleRemoveImage (indexToRemove : Z) : Eff unit :=
  (setBaseImagesWith
     (filterIndex (λ index, negb (index =? indexToRemove)%Z)) ;;
   setBaseImagePreviewsWithEff (λ prev,
     let newPreviews :=
       filterIndex (λ index, negb (index =? indexToRemove)%Z) prev in
     revokeObjectURL (at_ prev indexToRemove) ;;
     ret newPreviews))%eff.

Definition handleDragEvents (isOver : bool) : Eff unit :=
  setIsDragging isOver.

Definition handleDrop (snap : State) (files : list File) : Eff unit :=
  (handleDragEvents false ;;
   processFiles snap (Some files))%eff.

(** [handleImprovise], up to [await fetch(imageUrl)]. *)
Definition handleImprovise (snap : State) (imageUrl : string) : Eff unit :=
  if isEmptyString imageUrl then ret tt
  else suspend (FetchCall snap imageUrl).

(** [handleImprovise], from the settled [fetch] and [blob()] on;
    [now] is the value of [Date.now()]. *)
Definition handleImprovise_resume (snap : State) (imageUrl : string)
    (now : Z) (o : FetchOutcome) : Eff unit :=
  match o with
  | Fetched blob =>
      let newFile :=
        {| file_name := "improvised-" +:+ pretty now +:+ ".png";
           file_type := blob_type blob;
           file_base64 := blob_base64 blob |} in
      (forEach (λ url, revokeObjectURL (Some url)) (baseImagePreviews snap) ;;
       setBaseImages [newFile] ;;
       setBaseImagePreviews [imageUrl] ;;
       setGeneratedImage "" ;;
       setError "" ;;
       match selectedHistoryItem snap with
       | Some _ => setSelectedHistoryItem None
       | None => ret tt
       end ;;
       setActiveTab generator)%eff
  | FetchThrew err =>
      (consoleError [LoggedText "Failed to create file from generated image:";
                     LoggedValue err] ;;
       setError "Could not use the generated image as a new base.")%eff
  end.

(** [confirmed] is the answer of [window.confirm]. *)
Definition handleClearHistory (confirmed : bool) : Eff unit :=
  if confirmed then setHistory [] else ret tt.

Definition clearInputs (snap : State) : Eff unit :=
  (forEach (λ url, revokeObjectURL (Some url)) (baseImagePreviews snap) ;;
   setBaseImages [] ;;
   setBaseImagePreviews [] ;;
   setPrompt "" ;;
   setSeed "" ;;
   match build with
   | AspectRatioBuild => setAspectRatio Ratio_1_1
   | ClassicBuild => ret tt
   end)%eff.

(** The text of [textPart]: [prompt] in index.tsx, [finalPrompt] in the
    aspect-ratio build. *)
Definition finalPrompt (snap : State) : string :=
  match build with
  | ClassicBuild => prompt snap
  | AspectRatioBuild =>
      prompt snap +:+ LF +:+ LF
      +:+ "**IMPORTANT**: The output image must have a strict aspect ratio of exactly "
      +:+ ratioText (aspectRatio snap)
      +:+ ". This is a critical requirement."
  end.

Definition generateContentRequest (snap : State) : GenAI.Request :=
  let imageParts := map fileToGenerativePart (baseImages snap) in
  let textPart :=
    {| GenAI.text := Some (finalPrompt snap); GenAI.inlineData := None |} in
  {| GenAI.model := "gemini-2.5-flash-image-preview";
     GenAI.contents := imageParts ++ [textPart];
     GenAI.responseModalities := [GenAI.IMAGE; GenAI.TEXT] |}.

(** [response.candidates?.[0]?.content?.parts || []]. *)
Definition responseParts (response : GenAI.Response) : list GenAI.Part :=
  match GenAI.candidates response with
  | Some (candidate :: _) =>
      match GenAI.content candidate with
      | Some content =>
          match GenAI.parts content with
          | Some parts => parts
          | None => []
          end
      | None => []
      end
  | _ => []
  end.

(** [handleSubmit], up to the first [await]. *)
Definition handleSubmit (snap : State) : Eff unit :=
  if bool_decide (length (baseImages snap) = 0) || isEmptyString (prompt snap)
  then setError "Please upload at least one image and provide a prompt."
  else
    (setIsLoading true ;;
     setError "" ;;
     setGeneratedImage "" ;;
     suspend (GenerateContentCall snap))%eff.

(** The object literal [newHistoryItem]; [a] is the identity of the new
    object. *)
Definition newHistoryItem (snap : State) (now : Z) (imageUrl : string)
    (a : nat) : HistoryItem.t :=
  {| HistoryItem.addr := a;
     HistoryItem.id := "history-" +:+ pretty now;
     HistoryItem.baseImagePreviews :=
       if bool_decide (0 < length (baseImages snap))
       then baseImagePreviews snap else [];
     HistoryItem.prompt := prompt snap;
     HistoryItem.generatedImage := imageUrl;
     HistoryItem.seed := seed snap;
     HistoryItem.aspectRatio :=
       match build with
       | AspectRatioBuild => Some (aspectRatio snap)
       | ClassicBuild => None
       end |}.

(** The [for ... of] loop over the parts; the result is [foundImage]. *)
Fixpoint scanParts (snap : State) (now : Z) (parts : list GenAI.Part) : Eff bool :=
  match parts with
  | [] => ret false
  | part :: rest =>
      match GenAI.inlineData part with
      | Some inline =>
          let base64ImageBytes := GenAI.data inline in
          let mimeType := GenAI.mimeType inline in
          let imageUrl := "data:" +:+ mimeType +:+ ";base64," +:+ base64ImageBytes in
          (setGeneratedImage imageUrl ;;
           a <- allocObject ;;
           setHistoryWith (λ prev, newHistoryItem snap now imageUrl a :: slice0 19 prev) ;;
           clearInputs snap ;;
           ret true)%eff
      | None => scanParts snap now rest
      end
  end.

(** The [catch (err)] block of [handleSubmit]. *)
Definition handleSubmit_catch (err : Thrown) : Eff unit :=
  (consoleError [LoggedValue err] ;;
   let errorMessage :=
     match err with
     | ErrorObject message => message
     | ThrownString _ | OtherValue => "An unexpected error occurred."
     end in
   setError ("Error: " +:+ errorMessage
             +:+ ". Please check the console for more details."))%eff.

(** [handleSubmit], from the settled awaits on; [now] is the value of
    [Date.now()]. *)
Definition handleSubmit_resume (snap : State) (now : Z) (o : SubmitOutcome) : Eff unit :=
  (match o with
   | ThrewBeforeCall err => handleSubmit_catch err
   | CallRejected err =>
       sendRequest (generateContentRequest snap) ;;
       handleSubmit_catch err
   | CallResponded response =>
       sendRequest (generateContentRequest snap) ;;
       foundImage <- scanParts snap now (responseParts response) ;;
       if foundImage then ret tt
       else setError "The AI didn't return an image. Try a different prompt."
   end ;;
   setIsLoading false)%eff.

Definition toggleTheme : Eff unit :=
  setThemeWith (λ prevTheme,
    match prevTheme with light => dark | dark => light end).

(** ** Events *)

(** What the rendered page and the browser can deliver to the component.
    [ImproviseResult] and [ImproviseSelected] are the two buttons that
    call [handleImprovise]; the [...Settles] events complete the [k]-th
    suspended handler. *)
Inductive Event :=
  | ImageChange (files : option (list File))
  | Drop (files : list File)
  | Drag (isOver : bool)
  | RemoveImage (index : Z)
  | PromptChange (value : string)
  | SeedChange (value : string)
  | AspectRatioClick (ratio : AspectRatio)
  | Submit
  | ImproviseResult
  | ImproviseSelected
  | ClearHistory (confirmed : bool)
  | HistoryItemClick (index : nat)
  | ModalClose
  | TabClick (tab : Tab)
  | ThemeToggle
  | GenerateContentSettles (k : nat) (now : Z) (o : SubmitOutcome)
  | FetchSettles (k : nat) (now : Z) (o : FetchOutcome).

Definition dropPending (k : nat) : Eff unit :=
  λ σ, (tt, {| ui := ui σ; browser := browser σ;
               pending := delete k (pending σ) |}).

Definition dispatch (e : Event) : Eff unit := λ σ,
  let snap := ui σ in
  match e with
  | ImageChange files => handleImageChange snap files σ
  | Drop files => handleDrop snap files σ
  | Drag isOver => handleDragEvents isOver σ
  | RemoveImage index => handleRemoveImage index σ
  | PromptChange value => setPrompt value σ
  | SeedChange value => setSeed value σ
  | AspectRatioClick ratio =>
      match build with
      | AspectRatioBuild => setAspectRatio ratio σ
      | ClassicBuild => ret tt σ
      end
  | Submit => handleSubmit snap σ
  | ImproviseResult => handleImprovise snap (generatedImage snap) σ
  | ImproviseSelected =>
      match selectedHistoryItem snap with
      | Some item => handleImprovise snap (HistoryItem.generatedImage item) σ
      | None => ret tt σ
      end
  | ClearHistory confirmed => handleClearHistory confirmed σ
  | HistoryItemClick index =>
      match history snap !! index with
      | Some item => setSelectedHistoryItem (Some item) σ
      | None => ret tt σ
      end
  | ModalClose => setSelectedHistoryItem None σ
  | TabClick tab => setActiveTab tab σ
  | ThemeToggle => toggleTheme σ
  | GenerateContentSettles k now o =>
      match pending σ !! k with
      | Some (GenerateContentCall snap') =>
          (dropPending k ;; handleSubmit_resume snap' now o)%eff σ
      | _ => ret tt σ
      end
  | FetchSettles k now o =>
      match pending σ !! k with
      | Some (FetchCall snap' imageUrl) =>
          (dropPending k ;; handleImprovise_resume snap' imageUrl now o)%eff σ
      | _ => ret tt σ
      end
  end.

Definition step (σ : Session) (e : Event) : Session := exec (dispatch e) σ.

Definition run (events : list Event) (σ : Session) : Session :=
  foldl step σ events.

(** The sessions the page can be in. *)
Definition reachable (σ : Session) : Prop :=
  ∃ events, run events initialSession = σ.

End App.

(** ** Derived notions used in the statements *)

(** The draft named by the specification: images, previews, prompt, seed. *)
Definition draft (s : State) : list File * list string * string * string :=
  (baseImages s, baseImagePreviews s, prompt s, seed s).

(** The first content part that carries inline data, if any. *)
Definition firstInlineData (parts : list GenAI.Part) : option GenAI.InlineData :=
  head (omap GenAI.inlineData parts).

(** [t] occurs in [s]. *)
Definition contains (t s : string) : Prop :=
  ∃ before after, s = before +:+ t +:+ after.

(** [t] occurs in [s], as a test. *)
Fixpoint occursIn (t s : string) : bool :=
  String.prefix t s
  || match s with
     | EmptyString => false
     | String _ s' => occursIn t s'
     end.

(** A whole call of [handleSubmit] with nothing in between: the click, and
    the settlement of the call it has just suspended on. *)
Definition submitAndSettle (build : Build) (now : Z) (o : SubmitOutcome)
    (σ : Session) : Session :=
  step build (step build σ Submit)
       (GenerateContentSettles (length (pending σ)) now o).

(** The same for [handleImprovise(imageUrl)]. *)
Definition improviseAndSettle (build : Build) (imageUrl : string) (now : Z)
    (o : FetchOutcome) (σ : Session) : Session :=
  step build (exec (handleImprovise (ui σ) imageUrl) σ)
       (FetchSettles (length (pending σ)) now o).

(** The store after revoking every URL of [urls]. *)
Definition revokeAll (urls : list string) (m : gmap string File) : gmap string File :=
  foldl (λ m url, delete url m) m urls.

(** The store after registering [files] under the URLs numbered from [n]. *)
Fixpoint registerAll (n : nat) (files : list File) (m : gmap string File) : gmap string File :=
  match files with
  | [] => m
  | file :: files' => registerAll (S n) files' (<[blobURL n := file]> m)
  end.


Definition withObjectURLs (f : gmap string File → gmap string File) (b : Browser) : Browser :=
  {| objectURLs := f (objectURLs b); urlsIssued := urlsIssued b;
     objectsAllocated := objectsAllocated b; sentRequests := sentRequests b;
     consoleErrors := consoleErrors b |}.

(** The session between a valid click on submit and the settlement. *)
Definition submitting (σ : Session) : Session :=
  {| ui := withGeneratedImage "" (withError "" (withIsLoading true (ui σ)));
     browser := browser σ;
     pending := pending σ ++ [GenerateContentCall (ui σ)] |}.

(** The outcomes after which [handleSubmit] shows an error: a thrown
    value, or a response without a part carrying inline data. *)
Definition failed (o : SubmitOutcome) : Prop :=
  match o with
  | ThrewBeforeCall _ | CallRejected _ => True
  | CallResponded response => firstInlineData (responseParts response) = None
  end.

(** The outcomes in which [generateContent] was called. *)
Definition callMade (o : SubmitOutcome) : Prop :=
  match o with
  | ThrewBeforeCall _ => False
  | CallRejected _ | CallResponded _ => True
  end.

(** [addImages(files)] of the specification: [processFiles] run by the
    current render on a non-null file list. *)
Definition addImages (files : list File) (σ : Session) : Session :=
  exec (processFiles (ui σ) (Some files)) σ.

(** The sentence that names the ratio in [finalPrompt]. *)
Definition aspectRatioInstruction (r : AspectRatio) : string :=
  "The output image must have a strict aspect ratio of exactly "
  +:+ ratioText r +:+ ".".

(** ** Sample sessions *)

Definition towerPhoto : File := mkFile "tower.png" "image/png" "dG93ZXI=".
Definition moatPhoto : File := mkFile "moat.jpg" "image/jpeg" "bW9hdA==".
Definition beachPhoto : File := mkFile "beach.png" "image/png" "YmVhY2g=".

(** A response with a text part followed by one image part. *)
Definition imageResponse (mimeType payload : string) : GenAI.Response :=
  {| GenAI.candidates :=
       Some [ {| GenAI.content :=
                   Some {| GenAI.parts :=
                             Some [ {| GenAI.text := Some "Here is your image.";
                                       GenAI.inlineData := None |};
                                    {| GenAI.text := None;
                                       GenAI.inlineData :=
                                         Some {| GenAI.data := payload;
                                                 GenAI.mimeType := mimeType |} |} ] |} |} ] |}.

(** A response with a text part only. *)
Definition textResponse : GenAI.Response :=
  {| GenAI.candidates :=
       Some [ {| GenAI.content :=
                   Some {| GenAI.parts :=
                             Some [ {| GenAI.text := Some "I cannot draw that.";
                                       GenAI.inlineData := None |} ] |} |} ] |}.

(** Two uploaded images and the prompt "add a castle". *)
Definition castleEvents : list Event :=
  [ ImageChange (Some [towerPhoto; moatPhoto]); PromptChange "add a castle" ].

Definition castleDraft (build : Build) : Session :=
  run build castleEvents initialSession.

(** One uploaded image and the prompt "sunset". *)
Definition sunsetEvents : list Event :=
  [ Drop [beachPhoto]; PromptChange "sunset" ].

Definition sunsetDraft (build : Build) : Session :=
  run build sunsetEvents initialSession.

(** The castle draft with the ratio 16:9 selected. *)
Definition wideEvents : list Event :=
  castleEvents ++ [ AspectRatioClick Ratio_16_9 ].

Definition wideDraft : Session := run AspectRatioBuild wideEvents initialSession.

(** One generation from start to end. *)
Definition oneGeneration (now : Z) : list Event :=
  [ ImageChange (Some [towerPhoto]); PromptChange "add a castle"; Submit;
    GenerateContentSettles 0 now (CallResponded (imageResponse "image/png" "X")) ].

(** Twenty generations, then a new draft. *)
Definition fullHistoryEvents : list Event :=
  concat ((λ n, oneGeneration (1700 + Z.of_nat n)) <$> seq 0 20)
  ++ sunsetEvents.

Definition fullHistory (build : Build) : Session :=
  run build fullHistoryEvents initialSession.

(** ** The invariant of the session *)

(** [u] is a [data:] URL, as [handleSubmit] builds them. *)
Definition isDataURL (u : string) : Prop := ∃ rest, u = "data:" +:+ rest.

(** A preview is a [data:] URL (after improvise) or an object URL that
    was handed out. *)
Definition previewOK (issued : nat) (u : string) : Prop :=
  isDataURL u ∨ ∃ k, k < issued ∧ u = blobURL k.

Definition pendingOK (p : Pending) : Prop :=
  match p with
  | GenerateContentCall _ => True
  | FetchCall _ imageUrl => isDataURL imageUrl
  end.

Record invariant (σ : Session) : Prop := mkInvariant {
  inv_lengths : length (baseImages (ui σ)) = length (baseImagePreviews (ui σ));
  inv_cap : length (baseImages (ui σ)) ≤ 3;
  inv_previews_nodup : NoDup (baseImagePreviews (ui σ));
  inv_previews_ok :
    Forall (previewOK (urlsIssued (browser σ))) (baseImagePreviews (ui σ));
  inv_generated :
    generatedImage (ui σ) = "" ∨ isDataURL (generatedImage (ui σ));
  inv_history_data :
    Forall (λ item, isDataURL (HistoryItem.generatedImage item)) (history (ui σ));
  inv_selected :
    ∀ item, selectedHistoryItem (ui σ) = Some item →
            isDataURL (HistoryItem.generatedImage item);
  inv_pending : Forall pendingOK (pending σ);
  inv_history_cap : length (history (ui σ)) ≤ 20;
  inv_history_nodup : NoDup (HistoryItem.addr <$> history (ui σ));
  inv_history_alloc :
    Forall (λ item, HistoryItem.addr item < objectsAllocated (browser σ))
           (history (ui σ))
}.

(** ** The rest of the page *)

(** The [disabled] attribute of the submit button:
    [isLoading || baseImages.length === 0 || !prompt]. *)
Definition submitDisabled (s : State) : bool :=
  isLoading s || bool_decide (length (baseImages s) = 0) || isEmptyString (prompt s).

(** A click on a link with a [download] attribute. *)
Record Download := mkDownload {
  link_href : string;
  link_download : string
}.

(** [handleDownload]: the link is added to the document, clicked and
    removed again; what is left is the download it started.  [now] is the
    value of [Date.now()]. *)
Definition handleDownload (imageUrl : string) (now : Z) : list Download :=
  if isEmptyString imageUrl then []
  else [ {| link_href := imageUrl;
            link_download := "re-imagined-" +:+ pretty now +:+ ".png" |} ].

(** Every object URL among the previews is registered, for the image at
    the same position. *)
Definition previewsBacked (σ : Session) : Prop :=
  ∀ j k, baseImagePreviews (ui σ) !! j = Some (blobURL k) →
         objectURLs (browser σ) !! blobURL k = baseImages (ui σ) !! j.

(** The [id] given to a history item created at [now]. *)
Definition historyId (now : Z) : string := "history-" +:+ pretty now.

(** The values of [Date.now()] read by the submit continuations that a
    list of events runs. *)
Definition stamps (e : Event) : list Z :=
  match e with
  | GenerateContentSettles _ now _ => [now]
  | _ => []
  end.

Definition settlementTimes (events : list Event) : list Z :=
  events ≫= stamps.

(** The submit of the sunset draft in flight, while the user drops one
    more image and rewrites the prompt. *)
Definition inFlightEvents : list Event :=
  sunsetEvents ++ [ Submit; Drop [towerPhoto]; PromptChange "sunrise" ].

Definition inFlight (build : Build) : Session :=
  run build inFlightEvents initialSession.

(** One generation, then a look at its history item. *)
Definition browsingEvents : list Event :=
  oneGeneration 1700 ++ [ TabClick history_tab ].

Definition browsing (build : Build) : Session :=
  run build browsingEvents initialSession.

(** The detail view of the first history item is open and improvise has
    been clicked. *)
Definition openedEvents : list Event :=
  browsingEvents ++ [ HistoryItemClick 0 ].

Definition opened (build : Build) : Session :=
  run build openedEvents initialSession.

Definition improvisingEvents : list Event :=
  openedEvents ++ [ ImproviseSelected ].

Definition improvising (build : Build) : Session :=
  run build improvisingEvents initialSession.

(** One generation done and the next draft ready. *)
Definition secondDraftEvents : list Event :=
  oneGeneration 1700 ++ sunsetEvents.

Definition secondDraft (build : Build) : Session :=
  run build secondDraftEvents initialSession.

(** One generation done, the next one in flight. *)
Definition busyEvents : list Event :=
  secondDraftEvents ++ [ Submit ].

Definition busy (build : Build) : Session :=
  run build busyEvents initialSession.

(** A response whose first candidate only carries text, and whose second
    candidate carries an image. *)
Definition secondCandidateResponse : GenAI.Response :=
  {| GenAI.candidates :=
       Some [ {| GenAI.content :=
                   Some {| GenAI.parts :=
                             Some [ {| GenAI.text := Some "First try.";
                                       GenAI.inlineData := None |} ] |} |};
              {| GenAI.content :=
                   Some {| GenAI.parts :=
                             Some [ {| GenAI.text := None;
                                       GenAI.inlineData :=
                                         Some {| GenAI.data := "X";
                                                 GenAI.mimeType := "image/png" |} |} ] |} |} ] |}.

(** A response with two image parts. *)
Definition twoImagesResponse : GenAI.Response :=
  {| GenAI.candidates :=
       Some [ {| GenAI.content :=
                   Some {| GenAI.parts :=
                             Some [ {| GenAI.text := None;
                                       GenAI.inlineData :=
                                         Some {| GenAI.data := "X";
                                                 GenAI.mimeType := "image/png" |} |};
                                    {| GenAI.text := None;
                                       GenAI.inlineData :=
                                         Some {| GenAI.data := "Z";
                                                 GenAI.mimeType := "image/jpeg" |} |} ] |} |} ] |}.

(** ** How the primitives act on a session *)

Lemma forEach_revoke urls σ :
  forEach (λ url, revokeObjectURL (Some url)) urls σ
  = (tt, {| ui := ui σ;
            browser := withObjectURLs (revokeAll urls) (browser σ);
            pending := pending σ |}).
Proof.
  revert σ. induction urls as [|u urls IH]; intros [s [m n a r] p]; [done|].
  cbn. unfold bind. cbn. rewrite IH. done.
Qed.

Lemma mapEff_createObjectURL files σ :
  mapEff createObjectURL files σ
  = (blobURL <$> seq (urlsIssued (browser σ)) (length files),
     {| ui := ui σ;
        browser :=
          {| objectURLs := registerAll (urlsIssued (browser σ)) files
                                       (objectURLs (browser σ));
             urlsIssued := urlsIssued (browser σ) + length files;
             objectsAllocated := objectsAllocated (browser σ);
             sentRequests := sentRequests (browser σ);
                  consoleErrors := consoleErrors (browser σ) |};
        pending := pending σ |}).
Proof.
  revert σ. induction files as [|f files IH]; intros [s [m n a r] p].
  - cbn. by rewrite Nat.add_0_r.
  - cbn. unfold bind. cbn. rewrite IH. cbn.
    by rewrite Nat.add_succ_r.
Qed.

Lemma lookup_revokeAll urls m u :
  revokeAll urls m !! u = if decide (u ∈ urls) then None else m !! u.
Proof.
  revert m. induction urls as [|v urls IH]; intros m.
  - cbn. by rewrite decide_False by set_solver.
  - change (revokeAll (v :: urls) m) with (revokeAll urls (delete v m)).
    rewrite IH. destruct (decide (u = v)) as [->|Hne].
    + rewrite lookup_delete_eq. rewrite (decide_True _ _ (list_elem_of_here v urls)).
      by case_decide.
    + rewrite lookup_delete_ne by done.
      destruct (decide (u ∈ urls)) as [Hin|Hin].
      * by rewrite decide_True by (by right).
      * rewrite decide_False; [done|].
        intros [?|?]%elem_of_cons; done.
Qed.

Lemma string_app_assoc (a b c : string) : (a +:+ b) +:+ c = a +:+ b +:+ c.
Proof.
  induction a as [|x a IH]; [done|].
  change (String x ((a +:+ b) +:+ c) = String x (a +:+ b +:+ c)).
  by rewrite IH.
Qed.

Lemma prefix_app (t after : string) : String.prefix t (t +:+ after) = true.
Proof.
  induction t as [|a t IH]; [by destruct after|].
  change (String.prefix (String a t) (String a (t +:+ after)) = true).
  cbn [String.prefix]. by destruct (ascii_dec a a).
Qed.

Lemma occursIn_unfold (t s : string) :
  occursIn t s
  = String.prefix t s
    || match s with
       | EmptyString => false
       | String _ s' => occursIn t s'
       end.
Proof. by destruct s. Qed.

Lemma contains_occursIn (t s : string) : contains t s → occursIn t s = true.
Proof.
  intros (before & after & ->).
  induction before as [|a before IH].
  - rewrite occursIn_unfold.
    change ("" +:+ t +:+ after) with (t +:+ after).
    by rewrite prefix_app.
  - change (String a before +:+ t +:+ after)
      with (String a (before +:+ t +:+ after)).
    rewrite occursIn_unfold, IH. apply orb_true_r.
Qed.

Lemma slice0_nonneg {A} (n : Z) (l : list A) :
  (0 ≤ n)%Z → slice0 n l = take (Z.to_nat n) l.
Proof. intros H. unfold slice0. by rewrite (proj2 (Z.ltb_ge n 0)). Qed.

Lemma filterIndexFrom_keep_all {A} (keep : Z → bool) (l : list A) k :
  (∀ j, (k ≤ j < k + Z.of_nat (length l))%Z → keep j = true) →
  filterIndexFrom k keep l = l.
Proof.
  revert k. induction l as [|x l IH]; intros k H; [done|]. cbn.
  rewrite H by (cbn [length]; lia).
  f_equal. apply IH. intros j Hj. apply H. cbn [length]. lia.
Qed.

Lemma filterIndexFrom_delete {A} (l : list A) (i : nat) (k t : Z) :
  t = (k + Z.of_nat i)%Z →
  filterIndexFrom k (λ index, negb (index =? t)%Z) l = delete i l.
Proof.
  revert i k. induction l as [|x l IH]; intros i k ->; [done|]. cbn.
  destruct i as [|i].
  - rewrite Z.add_0_r, Z.eqb_refl. cbn.
    apply filterIndexFrom_keep_all. intros j Hj.
    apply negb_true_iff, Z.eqb_neq. lia.
  - rewrite (proj2 (Z.eqb_neq k (k + Z.of_nat (S i)))) by lia. cbn.
    f_equal. apply IH. lia.
Qed.

(** ** The submit handler, step by step *)

Section Submit.

Variable build : Build.

(** The guard of [handleSubmit] as a proposition. *)
Lemma validation_fails (s : State) :
  bool_decide (length (baseImages s) = 0) || isEmptyString (prompt s) = true
  ↔ baseImages s = [] ∨ prompt s = "".
Proof.
  rewrite orb_true_iff, bool_decide_eq_true.
  split; (intros [H|H]; [left|right]).
  - by destruct (baseImages s).
  - by destruct (prompt s).
  - by rewrite H.
  - by rewrite H.
Qed.

Lemma validation_passes (s : State) :
  baseImages s ≠ [] → prompt s ≠ "" →
  bool_decide (length (baseImages s) = 0) || isEmptyString (prompt s) = false.
Proof.
  intros Hi Hp. apply not_true_is_false.
  rewrite validation_fails. tauto.
Qed.

Lemma step_Submit_valid σ :
  baseImages (ui σ) ≠ [] → prompt (ui σ) ≠ "" →
  step build σ Submit = submitting σ.
Proof.
  intros Hi Hp. unfold step, exec, dispatch, handleSubmit.
  by rewrite validation_passes.
Qed.

Lemma step_Submit_invalid σ :
  baseImages (ui σ) = [] ∨ prompt (ui σ) = "" →
  step build σ Submit
  = {| ui := withError "Please upload at least one image and provide a prompt." (ui σ);
       browser := browser σ;
       pending := pending σ |}.
Proof.
  intros H. unfold step, exec, dispatch, handleSubmit.
  by rewrite (proj2 (validation_fails _) H).
Qed.

Lemma delete_last_app {A} (l : list A) x : delete (length l) (l ++ [x]) = l.
Proof. induction l as [|y l IH]; [done|]. cbn. f_equal. exact IH. Qed.

Lemma lookup_last_app {A} (l : list A) x : (l ++ [x]) !! length l = Some x.
Proof. induction l as [|y l IH]; cbn; done. Qed.

(** A valid submit followed by its settlement runs the second half of
    the handler with the closure of the click. *)
Lemma submitAndSettle_valid now o σ :
  baseImages (ui σ) ≠ [] → prompt (ui σ) ≠ "" →
  submitAndSettle build now o σ
  = exec (handleSubmit_resume build (ui σ) now o)
      {| ui := withGeneratedImage "" (withError "" (withIsLoading true (ui σ)));
         browser := browser σ;
         pending := pending σ |}.
Proof.
  intros Hi Hp. unfold submitAndSettle. rewrite step_Submit_valid by done.
  unfold step at 1, exec at 1, dispatch, submitting. cbn [pending].
  rewrite lookup_last_app. unfold bind at 1, dropPending. cbn [pending ui browser].
  by rewrite delete_last_app.
Qed.

Lemma firstInlineData_cons part parts :
  firstInlineData (part :: parts)
  = match GenAI.inlineData part with
    | Some inline => Some inline
    | None => firstInlineData parts
    end.
Proof. unfold firstInlineData. cbn. by destruct (GenAI.inlineData part). Qed.

(** The loop acts on the first part with inline data and on nothing
    else. *)
Lemma scanParts_first snap now parts inline :
  firstInlineData parts = Some inline →
  scanParts build snap now parts
  = scanParts build snap now
      [{| GenAI.text := None; GenAI.inlineData := Some inline |}].
Proof.
  induction parts as [|part parts IH]; [done|].
  rewrite firstInlineData_cons. cbn.
  destruct (GenAI.inlineData part) as [d|]; [|done].
  by intros [= ->].
Qed.

Lemma scanParts_none snap now parts :
  firstInlineData parts = None →
  scanParts build snap now parts = ret false.
Proof.
  induction parts as [|part parts IH]; [done|].
  rewrite firstInlineData_cons. cbn.
  by destruct (GenAI.inlineData part).
Qed.

End Submit.

(** ** Submitting a draft *)

Section SubmitOutcomes.

Variable build : Build.

Lemma exec_resume_found snap now response inline σ :
  firstInlineData (responseParts response) = Some inline →
  exec (handleSubmit_resume build snap now (CallResponded response)) σ
  = exec (handleSubmit_resume build snap now
            (CallResponded
               {| GenAI.candidates :=
                    Some [ {| GenAI.content :=
                                Some {| GenAI.parts :=
                                          Some [ {| GenAI.text := None;
                                                    GenAI.inlineData := Some inline |} ] |} |} ] |})) σ.
Proof.
  intros H. unfold exec, handleSubmit_resume, bind.
  by rewrite (scanParts_first build snap now _ inline H).
Qed.

Lemma exec_resume_not_found snap now response σ :
  firstInlineData (responseParts response) = None →
  exec (handleSubmit_resume build snap now (CallResponded response)) σ
  = {| ui := withIsLoading false
               (withError "The AI didn't return an image. Try a different prompt." (ui σ));
       browser :=
         {| objectURLs := objectURLs (browser σ);
            urlsIssued := urlsIssued (browser σ);
            objectsAllocated := objectsAllocated (browser σ);
            sentRequests := sentRequests (browser σ)
                            ++ [generateContentRequest build snap];
            consoleErrors := consoleErrors (browser σ) |};
       pending := pending σ |}.
Proof.
  intros H. unfold exec, handleSubmit_resume, bind.
  by rewrite (scanParts_none build snap now _ H).
Qed.

(** Whatever happened between the click and the settlement, the second
    half of a failed submit leaves draft, history and generated image of
    the current state alone. *)
Lemma resume_failed_frame snap now o σ :
  failed o →
  let σ' := exec (handleSubmit_resume build snap now o) σ in
  draft (ui σ') = draft (ui σ)
  ∧ history (ui σ') = history (ui σ)
  ∧ generatedImage (ui σ') = generatedImage (ui σ)
  ∧ isLoading (ui σ') = false.
Proof.
  intros Ho σ'. subst σ'.
  destruct o as [err|err|response]; cbn in Ho |- *; [done|done|].
  by rewrite exec_resume_not_found.
Qed.

(** And the second half of a successful submit empties the draft of the
    current state, whatever it holds by then. *)
Lemma resume_success_clears_draft snap now response inline σ :
  firstInlineData (responseParts response) = Some inline →
  draft (ui (exec (handleSubmit_resume build snap now (CallResponded response)) σ))
  = ([], [], "", "").
Proof.
  intros Hfirst. rewrite (exec_resume_found _ _ _ _ _ Hfirst).
  unfold exec, handleSubmit_resume, bind. cbn.
  unfold clearInputs, bind. rewrite forEach_revoke.
  by destruct build.
Qed.

(** A thrown value that is not an [Error] has no message to show: the
    error message carries the fixed text instead. *)
Lemma submit_failure_without_message σ now :
  baseImages (ui σ) ≠ [] → prompt (ui σ) ≠ "" →
  error (ui (submitAndSettle build now (CallRejected OtherValue) σ))
  = "Error: An unexpected error occurred.. Please check the console for more details.".
Proof.
  intros Hi Hp. by rewrite submitAndSettle_valid.
Qed.

(** C1.  A submit whose response carries inline image data: with [m]
    and [X] the MIME type and the payload of the first such part, the
    generated image is [data:m;base64,X]; one history item is created
    with that image and the submitted prompt and seed; and afterwards
    images, previews, prompt and seed of the draft are empty. *)
Theorem submit_success σ now response m X :
  baseImages (ui σ) ≠ [] → prompt (ui σ) ≠ "" →
  firstInlineData (responseParts response)
  = Some {| GenAI.data := X; GenAI.mimeType := m |} →
  let σ' := submitAndSettle build now (CallResponded response) σ in
  generatedImage (ui σ') = "data:" +:+ m +:+ ";base64," +:+ X
  ∧ (∃ item,
       history (ui σ') = item :: take 19 (history (ui σ))
       ∧ HistoryItem.generatedImage item = "data:" +:+ m +:+ ";base64," +:+ X
       ∧ HistoryItem.prompt item = prompt (ui σ)
       ∧ HistoryItem.seed item = seed (ui σ))
  ∧ baseImages (ui σ') = []
  ∧ baseImagePreviews (ui σ') = []
  ∧ prompt (ui σ') = ""
  ∧ seed (ui σ') = "".
Proof.
  intros Hi Hp Hfirst σ'. subst σ'.
  rewrite submitAndSettle_valid by done.
  rewrite (exec_resume_found _ _ _ _ _ Hfirst).
  unfold exec, handleSubmit_resume, bind. cbn.
  unfold clearInputs, bind. rewrite forEach_revoke.
  destruct build; cbn; (split; [done|]); (split; [|done]);
    eexists; (split; [reflexivity|done]).
Qed.

(** C3.  A submit with no base image or with an empty prompt sets the
    error message to the validation text and changes nothing else: no
    call is suspended and no request is sent. *)
Theorem submit_invalid σ :
  baseImages (ui σ) = [] ∨ prompt (ui σ) = "" →
  step build σ Submit
  = {| ui := withError "Please upload at least one image and provide a prompt." (ui σ);
       browser := browser σ;
       pending := pending σ |}.
Proof. apply step_Submit_invalid. Qed.

(** C4.  A submit whose response has no part with inline data sets the
    error message to the retry text, leaves the draft as it was before
    the call, and adds no history item. *)
Theorem submit_soft_failure σ now response :
  baseImages (ui σ) ≠ [] → prompt (ui σ) ≠ "" →
  firstInlineData (responseParts response) = None →
  let σ' := submitAndSettle build now (CallResponded response) σ in
  error (ui σ') = "The AI didn't return an image. Try a different prompt."
  ∧ draft (ui σ') = draft (ui σ)
  ∧ history (ui σ') = history (ui σ).
Proof.
  intros Hi Hp Hnone σ'. subst σ'.
  rewrite submitAndSettle_valid by done.
  by rewrite exec_resume_not_found.
Qed.

(** C7, amended.  A submit during which a value is thrown, before the
    call or by the call.  When the value is an [Error] with message [t],
    the error message is
    [Error: t. Please check the console for more details.], which
    contains [t]; for any other thrown value the message carries the
    fixed text [An unexpected error occurred.] in the place of [t].  In
    both cases the draft is as before, no history item is added, and the
    handler ends with the page no longer loading. *)
Theorem submit_hard_failure σ now o err :
  baseImages (ui σ) ≠ [] → prompt (ui σ) ≠ "" →
  o = ThrewBeforeCall err ∨ o = CallRejected err →
  let σ' := submitAndSettle build now o σ in
  (∀ t, err = ErrorObject t →
        error (ui σ') = "Error: " +:+ t +:+ ". Please check the console for more details."
        ∧ contains t (error (ui σ')))
  ∧ ((∀ t, err ≠ ErrorObject t) →
     error (ui σ')
     = "Error: An unexpected error occurred.. Please check the console for more details.")
  ∧ draft (ui σ') = draft (ui σ)
  ∧ history (ui σ') = history (ui σ)
  ∧ isLoading (ui σ') = false.
Proof.
  intros Hi Hp Ho σ'. subst σ'.
  rewrite submitAndSettle_valid by done.
  assert (Htext : ∀ t, contains t
    ("Error: " +:+ t +:+ ". Please check the console for more details."))
    by (intros t; by exists "Error: ", ". Please check the console for more details.").
  destruct Ho as [-> | ->]; cbn; (split; [|split; [|done]]).
  - intros t ->. split; [done|apply Htext].
  - intros Hnot. destruct err as [t| |]; [by destruct (Hnot t)|done..].
  - intros t ->. split; [done|apply Htext].
  - intros Hnot. destruct err as [t| |]; [by destruct (Hnot t)|done..].
Qed.

(** C10.  A valid submit empties the displayed image at the click,
    before any request is sent; after a failed call (an exception, or
    a response without image) it is still empty although the draft is
    kept. *)
Theorem submit_clears_generated_image σ now o :
  baseImages (ui σ) ≠ [] → prompt (ui σ) ≠ "" →
  failed o →
  generatedImage (ui (step build σ Submit)) = ""
  ∧ sentRequests (browser (step build σ Submit)) = sentRequests (browser σ)
  ∧ generatedImage (ui (submitAndSettle build now o σ)) = ""
  ∧ draft (ui (submitAndSettle build now o σ)) = draft (ui σ).
Proof.
  intros Hi Hp Ho.
  rewrite step_Submit_valid by done.
  rewrite submitAndSettle_valid by done.
  destruct o as [err|err|response]; cbn in Ho |- *; [done|done|].
  by rewrite exec_resume_not_found.
Qed.

End SubmitOutcomes.

(** ** The aspect-ratio build *)

Section AspectRatio.

Lemma finalPrompt_instruction (snap : State) :
  finalPrompt AspectRatioBuild snap
  = prompt snap +:+ LF +:+ LF +:+ "**IMPORTANT**: "
    +:+ aspectRatioInstruction (aspectRatio snap)
    +:+ " This is a critical requirement.".
Proof.
  unfold finalPrompt, aspectRatioInstruction.
  by destruct (aspectRatio snap).
Qed.

Lemma finalPrompt_contains_instruction (snap : State) :
  contains (aspectRatioInstruction (aspectRatio snap))
           (finalPrompt AspectRatioBuild snap).
Proof.
  rewrite finalPrompt_instruction.
  exists (prompt snap +:+ LF +:+ LF +:+ "**IMPORTANT**: "),
         " This is a critical requirement.".
  by rewrite !string_app_assoc.
Qed.

(** C8.  In the aspect-ratio build, a valid submit with ratio [r]
    selected whose call is made sends one request: the base images
    followed by one text part, which is the prompt with the instruction
    naming [r] appended to it (the request has no other place for the
    ratio).  When the response carries an image, the new history item
    records [r] and the ratio of the draft is back to 1:1. *)
Theorem submit_aspect_ratio σ now r :
  baseImages (ui σ) ≠ [] → prompt (ui σ) ≠ "" →
  aspectRatio (ui σ) = r →
  (∀ o, callMade o →
     sentRequests (browser (submitAndSettle AspectRatioBuild now o σ))
     = sentRequests (browser σ)
       ++ [ {| GenAI.model := "gemini-2.5-flash-image-preview";
               GenAI.contents :=
                 (fileToGenerativePart <$> baseImages (ui σ))
                 ++ [ {| GenAI.text :=
                           Some (prompt (ui σ) +:+ LF +:+ LF +:+ "**IMPORTANT**: "
                                 +:+ aspectRatioInstruction r
                                 +:+ " This is a critical requirement.");
                         GenAI.inlineData := None |} ];
               GenAI.responseModalities := [GenAI.IMAGE; GenAI.TEXT] |} ])
  ∧ contains (aspectRatioInstruction r) (finalPrompt AspectRatioBuild (ui σ))
  ∧ (∀ response inline,
       firstInlineData (responseParts response) = Some inline →
       let σ' := submitAndSettle AspectRatioBuild now (CallResponded response) σ in
       (HistoryItem.aspectRatio <$> head (history (ui σ'))) = Some (Some r)
       ∧ aspectRatio (ui σ') = Ratio_1_1).
Proof.
  intros Hi Hp <-.
  split; [|split; [apply finalPrompt_contains_instruction|]].
  - intros o Ho. rewrite submitAndSettle_valid by done.
    destruct o as [err|err|response]; [done| |].
    + cbn. unfold generateContentRequest. by rewrite finalPrompt_instruction.
    + destruct (firstInlineData (responseParts response)) as [inline|] eqn:Hfirst.
      * rewrite (exec_resume_found _ _ _ _ _ _ Hfirst).
        unfold exec, handleSubmit_resume, bind. cbn.
        unfold clearInputs, bind. rewrite forEach_revoke. cbn.
        unfold generateContentRequest. by rewrite finalPrompt_instruction.
      * rewrite exec_resume_not_found by done. cbn.
        unfold generateContentRequest. by rewrite finalPrompt_instruction.
  - intros response inline Hfirst σ'. subst σ'.
    rewrite submitAndSettle_valid by done.
    rewrite (exec_resume_found _ _ _ _ _ _ Hfirst).
    unfold exec, handleSubmit_resume, bind. cbn.
    unfold clearInputs, bind. by rewrite forEach_revoke.
Qed.

End AspectRatio.

(** ** Adding images *)

Section AddImages.

Lemma addImages_unfold files σ :
  length (baseImages (ui σ)) ≤ 3 →
  let accepted := take (3 - length (baseImages (ui σ))) files in
  addImages files σ
  = match accepted with
    | [] => σ
    | _ :: _ =>
        {| ui := withError ""
                   (withGeneratedImage ""
                      (withBaseImagePreviews
                         (λ prev, prev ++ (blobURL <$> seq (urlsIssued (browser σ))
                                                          (length accepted)))
                         (withBaseImages (λ prev, prev ++ accepted) (ui σ))));
           browser :=
             {| objectURLs := registerAll (urlsIssued (browser σ)) accepted
                                          (objectURLs (browser σ));
                urlsIssued := urlsIssued (browser σ) + length accepted;
                objectsAllocated := objectsAllocated (browser σ);
                sentRequests := sentRequests (browser σ);
                consoleErrors := consoleErrors (browser σ) |};
           pending := pending σ |}
    end.
Proof.
  intros Hle accepted. unfold addImages, exec, processFiles.
  rewrite slice0_nonneg by lia.
  replace (Z.to_nat (3 - Z.of_nat (length (baseImages (ui σ)))))
    with (3 - length (baseImages (ui σ))) by lia.
  fold accepted. destruct accepted as [|f accepted'] eqn:Hacc; [done|].
  rewrite decide_False by done.
  unfold bind. cbn -[mapEff]. by rewrite mapEff_createObjectURL.
Qed.

Lemma addImages_cap files σ :
  length (baseImages (ui σ)) ≤ 3 →
  length (baseImages (ui (addImages files σ))) ≤ 3.
Proof.
  intros Hle. rewrite addImages_unfold by done.
  destruct (take _ files) as [|f accepted'] eqn:Hacc; [done|].
  cbn [ui baseImages withError withGeneratedImage withBaseImagePreviews
       withBaseImages].
  rewrite length_app, <- Hacc, length_take. lia.
Qed.

(** C5.  From a draft of at most three images, [addImages] appends to
    the images already there the first images of the batch that fit
    under three; the count stays at most three after the call and after
    any further sequence of calls; a call whose truncated batch is
    empty changes nothing at all; a call that accepts an image empties
    the generated image and the error message. *)
Theorem addImages_spec files σ :
  length (baseImages (ui σ)) ≤ 3 →
  let accepted := take (3 - length (baseImages (ui σ))) files in
  let σ' := addImages files σ in
  baseImages (ui σ') = baseImages (ui σ) ++ accepted
  ∧ length (baseImages (ui σ')) ≤ 3
  ∧ (accepted = [] → σ' = σ)
  ∧ (accepted ≠ [] → generatedImage (ui σ') = "" ∧ error (ui σ') = "")
  ∧ (∀ batches,
       length (baseImages (ui (foldl (λ σ batch, addImages batch σ) σ batches))) ≤ 3).
Proof.
  intros Hle accepted σ'.
  assert (Hcap : length (baseImages (ui σ')) ≤ 3) by by apply addImages_cap.
  split; [|split; [done|split; [|split]]].
  - subst σ'. rewrite addImages_unfold by done. fold accepted.
    destruct accepted; [by rewrite app_nil_r|done].
  - intros Hnil. subst σ'. rewrite addImages_unfold by done. fold accepted.
    by rewrite Hnil.
  - intros Hne. subst σ'. rewrite addImages_unfold by done. fold accepted.
    by destruct accepted.
  - intros batches. revert Hle. generalize σ. clear.
    induction batches as [|batch batches IH]; intros σ Hcap; [done|].
    cbn. apply IH. by apply addImages_cap.
Qed.

End AddImages.

(** ** Improvising on a generated image *)

Section Improvise.

Variable build : Build.



(** On the empty reference [handleImprovise] returns at once: nothing is
    suspended, and a settlement has no continuation to run. *)
Lemma improviseAndSettle_empty now o σ :
  improviseAndSettle build "" now o σ = σ.
Proof.
  unfold improviseAndSettle.
  change (exec (handleImprovise (ui σ) "") σ) with σ.
  unfold step, exec, dispatch.
  by rewrite (lookup_ge_None_2 (pending σ) (length (pending σ))) by lia.
Qed.


End Improvise.

(** ** Every reachable session satisfies the invariant *)

Section Invariant.

Variable build : Build.

Lemma blobURL_inj a b : blobURL a = blobURL b → a = b.
Proof.
  unfold blobURL. intros H.
  apply (inj (String.append "blob:")) in H.
  by apply (inj pretty) in H.
Qed.

Lemma blobURL_not_data k : ¬ isDataURL (blobURL k).
Proof. intros [rest H]. unfold blobURL in H. discriminate H. Qed.

Lemma previewOK_mono n n' u : n ≤ n' → previewOK n u → previewOK n' u.
Proof.
  intros Hle [H|(k & Hk & ->)]; [by left|].
  right. exists k. split; [lia|done].
Qed.

Lemma initial_invariant : invariant initialSession.
Proof.
  split; cbn; try done; try lia; try (by left); by constructor.
Qed.

(** *** Adding images *)

Lemma fresh_previews_nodup n previews k :
  NoDup previews → Forall (previewOK n) previews →
  NoDup (previews ++ (blobURL <$> seq n k)).
Proof.
  intros Hnd Hok. apply NoDup_app. split; [done|]. split.
  - intros u Hu Hnew.
    apply list_elem_of_fmap in Hnew as (j & -> & Hj).
    apply elem_of_seq in Hj.
    rewrite Forall_forall in Hok.
    destruct (Hok _ Hu) as [Hdata|(i & Hi & Heq)].
    + by apply blobURL_not_data in Hdata.
    + apply blobURL_inj in Heq. lia.
  - apply NoDup_fmap_2_strong; [|apply NoDup_seq].
    intros a b _ _. apply blobURL_inj.
Qed.

Lemma fresh_previews_ok n previews k :
  Forall (previewOK n) previews →
  Forall (previewOK (n + k)) (previews ++ (blobURL <$> seq n k)).
Proof.
  intros Hok. apply Forall_app. split.
  - eapply Forall_impl; [done|]. intros u. apply previewOK_mono. lia.
  - apply Forall_fmap, Forall_forall. intros j Hj.
    apply elem_of_seq in Hj. right. exists j. split; [lia|done].
Qed.

Lemma addImages_invariant files σ :
  invariant σ → invariant (addImages files σ).
Proof.
  intros Hinv. rewrite addImages_unfold by apply Hinv.
  destruct (take _ files) as [|f accepted'] eqn:Hacc; [done|].
  rewrite <- Hacc.
  assert (Hlen : length (take (3 - length (baseImages (ui σ))) files)
                 ≤ 3 - length (baseImages (ui σ)))
    by (rewrite length_take; lia).
  destruct Hinv. split; cbn; try done.
  - by rewrite !length_app, length_fmap, length_seq, inv_lengths0.
  - rewrite length_app. lia.
  - by apply fresh_previews_nodup.
  - by apply fresh_previews_ok.
  - by left.
Qed.

Lemma handleDrop_addImages files σ :
  exec (handleDrop (ui σ) files) σ
  = addImages files
      {| ui := withIsDragging false (ui σ);
         browser := browser σ; pending := pending σ |}.
Proof. done. Qed.

(** *** Removing an image *)

Lemma filterIndex_remove {A} (l : list A) (i : Z) :
  filterIndex (λ index, negb (index =? i)%Z) l
  = if decide (0 ≤ i < Z.of_nat (length l))%Z then delete (Z.to_nat i) l else l.
Proof.
  unfold filterIndex. case_decide as Hi.
  - apply filterIndexFrom_delete. lia.
  - apply filterIndexFrom_keep_all. intros j Hj.
    apply negb_true_iff, Z.eqb_neq. lia.
Qed.

Lemma at_in_range {A} (l : list A) (i : Z) :
  (0 ≤ i < Z.of_nat (length l))%Z → at_ l i = l !! Z.to_nat i.
Proof. intros Hi. unfold at_. by rewrite (proj2 (Z.ltb_ge i 0)) by lia. Qed.

Lemma at_out_of_range {A} (l : list A) (i : Z) :
  ¬ (0 ≤ i < Z.of_nat (length l))%Z → at_ l i = None.
Proof.
  intros Hi. unfold at_. destruct (Z.ltb_spec i 0); [done|].
  apply lookup_ge_None. lia.
Qed.

Lemma step_RemoveImage σ i :
  step build σ (RemoveImage i)
  = {| ui := withBaseImagePreviews
               (filterIndex (λ index, negb (index =? i)%Z))
               (withBaseImages (filterIndex (λ index, negb (index =? i)%Z)) (ui σ));
       browser :=
         match at_ (baseImagePreviews (ui σ)) i with
         | Some url => withObjectURLs (delete url) (browser σ)
         | None => browser σ
         end;
       pending := pending σ |}.
Proof.
  unfold step, exec, dispatch, handleRemoveImage, setBaseImagePreviewsWithEff, bind.
  cbn. by destruct (at_ (baseImagePreviews (ui σ)) i).
Qed.

Lemma RemoveImage_invariant σ i :
  invariant σ → invariant (step build σ (RemoveImage i)).
Proof.
  intros Hinv. rewrite step_RemoveImage. destruct Hinv.
  destruct (at_ (baseImagePreviews (ui σ)) i) as [url|];
    (split; cbn; try done;
     rewrite ?filterIndex_remove, <- ?inv_lengths0; case_decide as Hi; try done;
     [ rewrite !length_delete by (apply lookup_lt_is_Some; lia); lia
     | pose proof (sublist_delete (baseImages (ui σ)) (Z.to_nat i)) as Hs;
       apply sublist_length in Hs; lia
     | eapply sublist_NoDup; [done|apply sublist_delete]
     | by apply Forall_delete
     ]).
Qed.

(** *** The second halves of the asynchronous handlers *)

Lemma resume_invariant snap now o σ :
  invariant σ → invariant (exec (handleSubmit_resume build snap now o) σ).
Proof.
  intros Hinv. destruct o as [err|err|response].
  - by destruct Hinv.
  - by destruct Hinv.
  - destruct (firstInlineData (responseParts response)) as [inline|] eqn:Hfirst.
    + rewrite (exec_resume_found build _ _ _ _ _ Hfirst).
      unfold exec, handleSubmit_resume, bind. cbn.
      unfold clearInputs, bind. rewrite forEach_revoke.
      destruct Hinv.
      assert (Hfresh : objectsAllocated (browser σ)
                       ∉ HistoryItem.addr <$> take 19 (history (ui σ))).
      { intros (item & Heq & Hin)%list_elem_of_fmap.
        apply elem_of_take in Hin as (j & Hin%list_elem_of_lookup_2 & _).
        rewrite Forall_forall in inv_history_alloc0.
        specialize (inv_history_alloc0 _ Hin). lia. }
      assert (Hnodup : NoDup (objectsAllocated (browser σ)
                              :: (HistoryItem.addr <$> take 19 (history (ui σ))))).
      { apply NoDup_cons. split; [done|].
        rewrite fmap_take. eapply sublist_NoDup; [done|apply sublist_take]. }
      assert (Halloc : Forall (λ item, HistoryItem.addr item
                                       < S (objectsAllocated (browser σ)))
                              (take 19 (history (ui σ)))).
      { apply Forall_take. eapply Forall_impl; [done|]. cbn. lia. }
      assert (Hcap : S (length (take 19 (history (ui σ)))) ≤ 20)
        by (rewrite length_take; lia).
      destruct build; split; cbn; try done; try lia;
        try (by constructor);
        try (right; by eexists);
        (constructor; [first [by eexists|cbn; lia]|]);
        first [done|by apply Forall_take].
    + rewrite exec_resume_not_found by done. by destruct Hinv.
Qed.

Lemma improvise_resume_invariant snap imageUrl now o σ :
  isDataURL imageUrl →
  invariant σ →
  invariant (exec (handleImprovise_resume snap imageUrl now o) σ).
Proof.
  intros Hdata Hinv. destruct o as [blob|err].
  - unfold exec, handleImprovise_resume, bind. rewrite forEach_revoke.
    destruct Hinv.
    destruct (selectedHistoryItem snap); (split; cbn; try done;
      [ lia
      | apply NoDup_singleton
      | constructor; [by left|done]
      | by left ]).
  - by destruct Hinv.
Qed.

Lemma dropPending_invariant k σ :
  invariant σ → invariant (exec (dropPending k) σ).
Proof.
  intros Hinv. destruct Hinv. split; cbn; try done. by apply Forall_delete.
Qed.

(** *** Every event preserves the invariant *)

Theorem step_invariant σ e : invariant σ → invariant (step build σ e).
Proof.
  intros Hinv. destruct e.
  - destruct files as [files|]; [|exact Hinv].
    exact (addImages_invariant files σ Hinv).
  - change (invariant (exec (handleDrop (ui σ) files) σ)).
    rewrite handleDrop_addImages.
    apply addImages_invariant. by destruct Hinv.
  - by destruct Hinv.
  - by apply RemoveImage_invariant.
  - by destruct Hinv.
  - by destruct Hinv.
  - unfold step, exec, dispatch. destruct build; [done|]. by destruct Hinv.
  - unfold step, exec, dispatch, handleSubmit.
    destruct (_ || _); destruct Hinv; split; cbn; try done; try (by left).
    apply Forall_app. split; [done|]. by constructor.
  - unfold step, exec, dispatch, handleImprovise.
    destruct (isEmptyString (generatedImage (ui σ))) eqn:Hempty; [done|].
    destruct Hinv. split; cbn; try done.
    apply Forall_app. split; [done|]. constructor; [|done]. cbn.
    destruct inv_generated0 as [Heq|Hdata]; [|done].
    by rewrite Heq in Hempty.
  - unfold step, exec, dispatch, handleImprovise.
    destruct (selectedHistoryItem (ui σ)) as [item|] eqn:Hsel; [|done].
    destruct (isEmptyString _); [done|].
    destruct Hinv. split; cbn; try done.
    apply Forall_app. split; [done|]. constructor; [|done]. cbn. eauto.
  - unfold step, exec, dispatch, handleClearHistory.
    destruct confirmed; [|done].
    destruct Hinv. split; cbn; try done; try lia; constructor.
  - unfold step, exec, dispatch.
    destruct (history (ui σ) !! index) as [item|] eqn:Hitem; [|done].
    destruct Hinv. split; cbn; try done.
    intros item' [= <-]. by eapply (Forall_lookup_1 _ _ _ _ inv_history_data0).
  - destruct Hinv. split; cbn; done.
  - by destruct Hinv.
  - by destruct Hinv.
  - unfold step, exec, dispatch.
    destruct (pending σ !! k) as [[snap|snap imageUrl]|] eqn:Hk; try done.
    change (invariant (exec (handleSubmit_resume build snap now o)
                            (exec (dropPending k) σ))).
    by apply resume_invariant, dropPending_invariant.
  - unfold step, exec, dispatch.
    destruct (pending σ !! k) as [[snap|snap imageUrl]|] eqn:Hk; try done.
    change (invariant (exec (handleImprovise_resume snap imageUrl now o)
                            (exec (dropPending k) σ))).
    apply improvise_resume_invariant; [|by apply dropPending_invariant].
    destruct Hinv.
    by apply (Forall_lookup_1 _ _ _ _ inv_pending0 Hk).
Qed.

Lemma run_invariant events σ : invariant σ → invariant (run build events σ).
Proof.
  revert σ. induction events as [|e events IH]; intros σ Hinv; [done|].
  cbn. by apply IH, step_invariant.
Qed.

Theorem reachable_invariant σ : reachable build σ → invariant σ.
Proof. intros [events <-]. apply run_invariant, initial_invariant. Qed.

(** *** The generated image is shown only while the draft has no image *)

Lemma step_image_or_draft σ e :
  invariant σ →
  baseImages (ui σ) = [] ∨ generatedImage (ui σ) = "" →
  baseImages (ui (step build σ e)) = [] ∨ generatedImage (ui (step build σ e)) = "".
Proof.
  intros Hinv H. destruct e; try exact H.
  - destruct files as [files|]; [|exact H].
    change (step build σ (ImageChange (Some files))) with (addImages files σ).
    rewrite addImages_unfold by apply Hinv.
    destruct (take _ files); [exact H|by right].
  - change (step build σ (Drop files))
      with (addImages files {| ui := withIsDragging false (ui σ);
                               browser := browser σ; pending := pending σ |}).
    rewrite addImages_unfold by apply Hinv.
    destruct (take _ files); [exact H|by right].
  - rewrite step_RemoveImage. cbn. destruct H as [H|H]; [|by right].
    left. by rewrite H.
  - unfold step, exec, dispatch. by destruct build.
  - unfold step, exec, dispatch, handleSubmit.
    destruct (_ || _); [exact H|by right].
  - unfold step, exec, dispatch, handleImprovise.
    by destruct (isEmptyString _).
  - unfold step, exec, dispatch, handleImprovise.
    destruct (selectedHistoryItem (ui σ)); [|exact H].
    by destruct (isEmptyString _).
  - unfold step, exec, dispatch, handleClearHistory. by destruct confirmed.
  - unfold step, exec, dispatch. by destruct (history (ui σ) !! index).
  - unfold step, exec, dispatch.
    destruct (pending σ !! k) as [[snap|snap imageUrl]|] eqn:Hk; try exact H.
    change (baseImages (ui (exec (handleSubmit_resume build snap now o)
                                 (exec (dropPending k) σ))) = []
            ∨ generatedImage (ui (exec (handleSubmit_resume build snap now o)
                                       (exec (dropPending k) σ))) = "").
    destruct o as [err|err|response]; [exact H|exact H|].
    destruct (firstInlineData (responseParts response)) as [inline|] eqn:Hfirst.
    + rewrite (exec_resume_found build _ _ _ _ _ Hfirst).
      unfold exec at 1, handleSubmit_resume, bind. cbn.
      unfold clearInputs, bind. rewrite forEach_revoke.
      left. by destruct build.
    + by rewrite exec_resume_not_found.
  - unfold step, exec, dispatch.
    destruct (pending σ !! k) as [[snap|snap imageUrl]|] eqn:Hk; try exact H.
    destruct o as [blob|err]; [|exact H].
    right.
    change (generatedImage
              (ui (exec (handleImprovise_resume snap imageUrl now (Fetched blob))
                        (exec (dropPending k) σ))) = "").
    unfold exec at 1, handleImprovise_resume, bind. rewrite forEach_revoke.
    by destruct (selectedHistoryItem snap).
Qed.

(** Whenever a reachable session has a base image in its draft, no
    generated image is displayed: the click on submit finds nothing left
    to hide. *)
Theorem reachable_image_or_draft σ :
  reachable build σ →
  baseImages (ui σ) = [] ∨ generatedImage (ui σ) = "".
Proof.
  intros [events <-].
  assert (H : ∀ σ, invariant σ →
                   baseImages (ui σ) = [] ∨ generatedImage (ui σ) = "" →
                   baseImages (ui (run build events σ)) = []
                   ∨ generatedImage (ui (run build events σ)) = "").
  { induction events as [|e events IH]; intros σ Hinv H; [done|].
    cbn. apply IH; [by apply step_invariant|by apply step_image_or_draft]. }
  apply H; [apply initial_invariant|by left].
Qed.

End Invariant.

(** ** Removing an image *)

Section RemoveImage.

Variable build : Build.

Lemma NoDup_not_in_delete {A} (l : list A) n x :
  NoDup l → l !! n = Some x → x ∉ delete n l.
Proof.
  intros Hnd Hn Hin.
  apply list_elem_of_lookup in Hin as [j Hj].
  destruct (decide (j < n)) as [Hlt|Hge].
  - rewrite list_lookup_delete_lt in Hj by done.
    pose proof (NoDup_lookup _ _ _ _ Hnd Hj Hn). lia.
  - rewrite list_lookup_delete_ge in Hj by lia.
    pose proof (NoDup_lookup _ _ _ _ Hnd Hj Hn). lia.
Qed.

(** C9.  In a reachable session, [removeImage(i)] with [i] in range
    removes the image and the preview at position [i] and keeps the
    others in order; it revokes the URL of the removed preview and no
    other, and that URL is not the URL of a preview that remains.  With
    [i] out of range the session is unchanged. *)
Theorem removeImage_spec σ (i : Z) :
  reachable build σ →
  let σ' := step build σ (RemoveImage i) in
  ((0 ≤ i < Z.of_nat (length (baseImages (ui σ))))%Z →
     ∃ url,
       baseImagePreviews (ui σ) !! Z.to_nat i = Some url
       ∧ σ' = {| ui := withBaseImagePreviews (delete (Z.to_nat i))
                         (withBaseImages (delete (Z.to_nat i)) (ui σ));
                 browser := withObjectURLs (delete url) (browser σ);
                 pending := pending σ |}
       ∧ (url ∉ baseImagePreviews (ui σ'))
       ∧ (∀ u, u ∈ baseImagePreviews (ui σ') →
               objectURLs (browser σ') !! u = objectURLs (browser σ) !! u))
  ∧ (¬ (0 ≤ i < Z.of_nat (length (baseImages (ui σ))))%Z → σ' = σ).
Proof.
  intros Hinv%reachable_invariant σ'. subst σ'.
  rewrite step_RemoveImage. destruct Hinv. split.
  - intros Hi.
    destruct (lookup_lt_is_Some_2 (baseImagePreviews (ui σ)) (Z.to_nat i))
      as [url Hurl]; [lia|].
    exists url. split; [done|].
    rewrite at_in_range, Hurl by lia.
    assert (Hnot : url ∉ delete (Z.to_nat i) (baseImagePreviews (ui σ)))
      by by apply NoDup_not_in_delete.
    unfold withBaseImagePreviews, withBaseImages. cbn.
    rewrite !filterIndex_remove, <- inv_lengths0, !decide_True by done.
    split; [done|]. split; [done|].
    intros u Hu. apply lookup_delete_ne. by intros ->.
  - intros Hi. rewrite at_out_of_range by (by rewrite <- inv_lengths0).
    unfold withBaseImagePreviews, withBaseImages. cbn.
    rewrite !filterIndex_remove, <- inv_lengths0, !decide_False by done.
    by destruct σ as [[] ? ?].
Qed.

End RemoveImage.

(** ** The bounded history *)

Section History.

Variable build : Build.

Lemma history_after_success σ now response inline :
  baseImages (ui σ) ≠ [] → prompt (ui σ) ≠ "" →
  firstInlineData (responseParts response) = Some inline →
  history (ui (submitAndSettle build now (CallResponded response) σ))
  = newHistoryItem build (ui σ) now
      ("data:" +:+ GenAI.mimeType inline +:+ ";base64," +:+ GenAI.data inline)
      (objectsAllocated (browser σ))
    :: take 19 (history (ui σ)).
Proof.
  intros Hi Hp Hfirst.
  rewrite submitAndSettle_valid by done.
  rewrite (exec_resume_found _ _ _ _ _ _ Hfirst).
  unfold exec, handleSubmit_resume, bind. cbn.
  unfold clearInputs, bind. rewrite forEach_revoke.
  by destruct build.
Qed.

(** C2.  A reachable session has at most 20 history items.  A
    successful generation puts exactly one new item in front of the
    first 19 former items, so the history still has at most 20 items;
    when it had 20, it has 20 again and the item formerly at index 19
    is no longer in it. *)
Theorem history_bounded σ :
  reachable build σ →
  length (history (ui σ)) ≤ 20
  ∧ (∀ now response inline,
       baseImages (ui σ) ≠ [] → prompt (ui σ) ≠ "" →
       firstInlineData (responseParts response) = Some inline →
       let σ' := submitAndSettle build now (CallResponded response) σ in
       (∃ item,
          history (ui σ') = item :: take 19 (history (ui σ))
          ∧ history (ui σ') !! 0 = Some item
          ∧ item ∉ history (ui σ))
       ∧ length (history (ui σ')) ≤ 20
       ∧ (length (history (ui σ)) = 20 →
          length (history (ui σ')) = 20
          ∧ ∀ last, history (ui σ) !! 19 = Some last →
                    last ∉ history (ui σ'))).
Proof.
  intros Hinv%reachable_invariant. destruct Hinv. split; [done|].
  intros now response inline Hi Hp Hfirst σ'. subst σ'.
  rewrite (history_after_success _ _ _ inline) by done.
  rewrite Forall_forall in inv_history_alloc0.
  split; [|split].
  - eexists. split; [done|]. split; [done|].
    intros Hin%inv_history_alloc0. cbn in Hin. lia.
  - cbn. rewrite length_take. lia.
  - intros Hlen. split; [cbn; rewrite length_take; lia|].
    intros last Hlast [->|Hin]%elem_of_cons.
    + apply list_elem_of_lookup_2, inv_history_alloc0 in Hlast.
      cbn in Hlast. lia.
    + apply elem_of_take in Hin as (j & Hj & Hlt).
      apply NoDup_fmap_1 in inv_history_nodup0.
      pose proof (NoDup_lookup _ _ _ _ inv_history_nodup0 Hj Hlast). lia.
Qed.

End History.

(** ** The theorems at sample sessions *)

Lemma submit_success_witness :
  let σ := castleDraft ClassicBuild in
  let σ' := submitAndSettle ClassicBuild 1700
              (CallResponded (imageResponse "image/png" "X")) σ in
  generatedImage (ui σ') = "data:image/png;base64,X"
  ∧ (∃ item,
       history (ui σ') = item :: take 19 (history (ui σ))
       ∧ HistoryItem.generatedImage item = "data:image/png;base64,X"
       ∧ HistoryItem.prompt item = "add a castle"
       ∧ HistoryItem.seed item = "")
  ∧ baseImages (ui σ') = []
  ∧ baseImagePreviews (ui σ') = []
  ∧ prompt (ui σ') = ""
  ∧ seed (ui σ') = "".
Proof.
  apply (submit_success ClassicBuild (castleDraft ClassicBuild) 1700
           (imageResponse "image/png" "X") "image/png" "X").
  - by vm_compute.
  - by vm_compute.
  - reflexivity.
Defined.

Lemma history_bounded_witness :
  let σ := fullHistory ClassicBuild in
  let σ' := submitAndSettle ClassicBuild 2100
              (CallResponded (imageResponse "image/png" "Y")) σ in
  length (history (ui σ)) = 20
  ∧ length (history (ui σ')) = 20
  ∧ ∀ last, history (ui σ) !! 19 = Some last → last ∉ history (ui σ').
Proof.
  intros σ σ'.
  destruct (history_bounded ClassicBuild σ) as [_ Hsubmit].
  { exists fullHistoryEvents. reflexivity. }
  destruct (Hsubmit 2100%Z (imageResponse "image/png" "Y")
              {| GenAI.data := "Y"; GenAI.mimeType := "image/png" |})
    as (_ & _ & Hfull).
  - by vm_compute.
  - by vm_compute.
  - reflexivity.
  - split; [by vm_compute|]. apply Hfull. by vm_compute.
Defined.

Lemma submit_invalid_witness :
  step ClassicBuild initialSession Submit
  = {| ui := withError "Please upload at least one image and provide a prompt."
               initialState;
       browser := initialBrowser;
       pending := [] |}.
Proof.
  apply (submit_invalid ClassicBuild initialSession). left. reflexivity.
Defined.

Lemma submit_soft_failure_witness :
  let σ := sunsetDraft ClassicBuild in
  let σ' := submitAndSettle ClassicBuild 1700 (CallResponded textResponse) σ in
  error (ui σ') = "The AI didn't return an image. Try a different prompt."
  ∧ draft (ui σ') = draft (ui σ)
  ∧ history (ui σ') = history (ui σ).
Proof.
  apply (submit_soft_failure ClassicBuild (sunsetDraft ClassicBuild) 1700 textResponse).
  - by vm_compute.
  - by vm_compute.
  - reflexivity.
Defined.

Lemma addImages_spec_witness :
  let σ := castleDraft ClassicBuild in
  let σ' := addImages [beachPhoto; towerPhoto; moatPhoto] σ in
  baseImages (ui σ') = [towerPhoto; moatPhoto; beachPhoto]
  ∧ addImages [towerPhoto] σ' = σ'.
Proof.
  intros σ σ'.
  destruct (addImages_spec [beachPhoto; towerPhoto; moatPhoto] σ)
    as (Himages & Hcap & _).
  { vm_compute. lia. }
  split; [exact Himages|].
  destruct (addImages_spec [towerPhoto] σ' Hcap) as (_ & _ & Hnoop & _).
  apply Hnoop. reflexivity.
Defined.


Lemma submit_hard_failure_witness :
  let σ := sunsetDraft ClassicBuild in
  let σ' := submitAndSettle ClassicBuild 1700
              (CallRejected (ErrorObject "quota exceeded")) σ in
  error (ui σ') = "Error: quota exceeded. Please check the console for more details."
  ∧ contains "quota exceeded" (error (ui σ'))
  ∧ draft (ui σ') = draft (ui σ)
  ∧ history (ui σ') = history (ui σ)
  ∧ isLoading (ui σ') = false.
Proof.
  intros σ σ'.
  destruct (submit_hard_failure ClassicBuild σ 1700
              (CallRejected (ErrorObject "quota exceeded"))
              (ErrorObject "quota exceeded"))
    as (Hmessage & _ & Hrest).
  - by vm_compute.
  - by vm_compute.
  - right. reflexivity.
  - destruct (Hmessage "quota exceeded" eq_refl) as [Htext Hcontains].
    split; [exact Htext|]. split; [exact Hcontains|]. exact Hrest.
Defined.

(** C7 as stated fails when the value thrown is not an [Error]: a call
    rejected with the string [quota exceeded] leaves an error message
    in which that text does not occur. *)
Lemma hard_failure_text_dropped :
  let σ := sunsetDraft ClassicBuild in
  let σ' := submitAndSettle ClassicBuild 1700
              (CallRejected (ThrownString "quota exceeded")) σ in
  error (ui σ')
  = "Error: An unexpected error occurred.. Please check the console for more details."
  ∧ ¬ contains "quota exceeded" (error (ui σ')).
Proof.
  split; [by vm_compute|].
  intros H%contains_occursIn. vm_compute in H. discriminate H.
Qed.

Lemma submit_aspect_ratio_witness :
  let σ' := submitAndSettle AspectRatioBuild 1700
              (CallResponded (imageResponse "image/png" "X")) wideDraft in
  contains "The output image must have a strict aspect ratio of exactly 16:9."
           (finalPrompt AspectRatioBuild (ui wideDraft))
  ∧ (HistoryItem.aspectRatio <$> head (history (ui σ'))) = Some (Some Ratio_16_9)
  ∧ aspectRatio (ui σ') = Ratio_1_1.
Proof.
  intros σ'.
  destruct (submit_aspect_ratio wideDraft 1700 Ratio_16_9) as (_ & Htext & Hok).
  - by vm_compute.
  - by vm_compute.
  - reflexivity.
  - split; [exact Htext|].
    apply (Hok (imageResponse "image/png" "X")
               {| GenAI.data := "X"; GenAI.mimeType := "image/png" |}).
    reflexivity.
Defined.

Lemma removeImage_spec_witness :
  let σ := castleDraft ClassicBuild in
  let σ' := step ClassicBuild σ (RemoveImage 0) in
  baseImages (ui σ') = [moatPhoto]
  ∧ baseImagePreviews (ui σ') = ["blob:1"]
  ∧ objectURLs (browser σ') !! "blob:0" = None
  ∧ step ClassicBuild σ (RemoveImage 2) = σ.
Proof.
  intros σ σ'.
  destruct (removeImage_spec ClassicBuild σ 0) as [Hin _].
  { exists castleEvents. reflexivity. }
  destruct (removeImage_spec ClassicBuild σ 2) as [_ Hout].
  { exists castleEvents. reflexivity. }
  destruct Hin as (url & Hurl & Heq & _).
  { vm_compute. split; [discriminate|reflexivity]. }
  assert (url = "blob:0") as -> by (vm_compute in Hurl; congruence).
  split; [|split; [|split]].
  - subst σ'. rewrite Heq. reflexivity.
  - subst σ'. rewrite Heq. reflexivity.
  - subst σ'. rewrite Heq. reflexivity.
  - apply Hout. vm_compute. intros [_ H]. discriminate H.
Defined.

Lemma submit_clears_generated_image_witness :
  let σ := sunsetDraft ClassicBuild in
  generatedImage (ui (step ClassicBuild σ Submit)) = ""
  ∧ sentRequests (browser (step ClassicBuild σ Submit)) = []
  ∧ generatedImage (ui (submitAndSettle ClassicBuild 1800
                          (CallResponded textResponse) σ)) = ""
  ∧ draft (ui (submitAndSettle ClassicBuild 1800
                 (CallResponded textResponse) σ)) = draft (ui σ).
Proof.
  apply (submit_clears_generated_image ClassicBuild (sunsetDraft ClassicBuild) 1800
           (CallResponded textResponse)).
  - by vm_compute.
  - by vm_compute.
  - reflexivity.
Defined.

(** ** Further properties of the handlers *)

Section Settlements.

Variable build : Build.

Lemma step_GenerateContentSettles σ k now o snap :
  pending σ !! k = Some (GenerateContentCall snap) →
  step build σ (GenerateContentSettles k now o)
  = exec (handleSubmit_resume build snap now o) (exec (dropPending k) σ).
Proof. intros H. unfold step, exec, dispatch. by rewrite H. Qed.

Lemma step_FetchSettles σ k now o snap imageUrl :
  pending σ !! k = Some (FetchCall snap imageUrl) →
  step build σ (FetchSettles k now o)
  = exec (handleImprovise_resume snap imageUrl now o) (exec (dropPending k) σ).
Proof. intros H. unfold step, exec, dispatch. by rewrite H. Qed.

(** The session after the second half of a successful submit. *)
Lemma exec_resume_success snap now response inline σ :
  firstInlineData (responseParts response) = Some inline →
  let imageUrl :=
    "data:" +:+ GenAI.mimeType inline +:+ ";base64," +:+ GenAI.data inline in
  let σ' := exec (handleSubmit_resume build snap now (CallResponded response)) σ in
  history (ui σ')
  = newHistoryItem build snap now imageUrl (objectsAllocated (browser σ))
    :: take 19 (history (ui σ))
  ∧ generatedImage (ui σ') = imageUrl
  ∧ draft (ui σ') = ([], [], "", "")
  ∧ isLoading (ui σ') = false
  ∧ error (ui σ') = error (ui σ)
  ∧ selectedHistoryItem (ui σ') = selectedHistoryItem (ui σ)
  ∧ activeTab (ui σ') = activeTab (ui σ)
  ∧ theme (ui σ') = theme (ui σ)
  ∧ objectURLs (browser σ')
    = revokeAll (baseImagePreviews snap) (objectURLs (browser σ))
  ∧ pending σ' = pending σ.
Proof.
  intros Hfirst imageUrl σ'. subst imageUrl σ'.
  rewrite (exec_resume_found _ _ _ _ _ _ Hfirst).
  unfold exec, handleSubmit_resume, bind. cbn.
  unfold clearInputs, bind. rewrite forEach_revoke.
  by destruct build.
Qed.

(** While a submit is in flight the user may change the draft.  When the
    call then fails, only the error message and the loading flag change:
    the draft as it is by then, the history, the displayed image and the
    object URLs stay. *)
Theorem failed_submit_keeps_current_state σ k now o snap :
  pending σ !! k = Some (GenerateContentCall snap) →
  failed o →
  let σ' := step build σ (GenerateContentSettles k now o) in
  (∃ message, ui σ' = withIsLoading false (withError message (ui σ)))
  ∧ objectURLs (browser σ') = objectURLs (browser σ)
  ∧ pending σ' = delete k (pending σ).
Proof.
  intros Hk Ho σ'. subst σ'. rewrite (step_GenerateContentSettles _ _ _ _ _ Hk).
  destruct o as [err|err|response]; cbn in Ho |- *.
  - split; [by eexists|done].
  - split; [by eexists|done].
  - rewrite exec_resume_not_found by done. split; [by eexists|done].
Qed.

(** When the call succeeds, the history item records the draft of the
    click, not the draft as it is by then; the whole current draft is
    emptied; and only the preview URLs of the click are revoked, so the
    URL of an image added in the meantime stays registered although no
    preview refers to it any more. *)
Theorem late_success_uses_closure σ k now response inline snap :
  pending σ !! k = Some (GenerateContentCall snap) →
  firstInlineData (responseParts response) = Some inline →
  let σ' := step build σ (GenerateContentSettles k now (CallResponded response)) in
  (∃ item,
     history (ui σ') = item :: take 19 (history (ui σ))
     ∧ HistoryItem.prompt item = prompt snap
     ∧ HistoryItem.seed item = seed snap)
  ∧ draft (ui σ') = ([], [], "", "")
  ∧ (∀ url, url ∈ baseImagePreviews snap → objectURLs (browser σ') !! url = None)
  ∧ (∀ url, url ∈ baseImagePreviews (ui σ) → url ∉ baseImagePreviews snap →
            objectURLs (browser σ') !! url = objectURLs (browser σ) !! url).
Proof.
  intros Hk Hfirst σ'. subst σ'. rewrite (step_GenerateContentSettles _ _ _ _ _ Hk).
  destruct (exec_resume_success snap now response inline (exec (dropPending k) σ) Hfirst)
    as (Hh & _ & Hd & _ & _ & _ & _ & _ & Hu & _).
  rewrite Hh, Hd, Hu. split; [by eexists|]. split; [done|]. split.
  - intros url Hin. rewrite lookup_revokeAll. by rewrite decide_True.
  - intros url _ Hnot. rewrite lookup_revokeAll. by rewrite decide_False.
Qed.

End Settlements.

(** ** What holds in every reachable session *)

Section Reachable.

Variable build : Build.

(** In every reachable session the draft has as many previews as images,
    at most three, and no two previews are the same URL. *)
Theorem draft_well_formed σ :
  reachable build σ →
  length (baseImages (ui σ)) = length (baseImagePreviews (ui σ))
  ∧ length (baseImages (ui σ)) ≤ 3
  ∧ NoDup (baseImagePreviews (ui σ)).
Proof. intros Hinv%reachable_invariant. by destruct Hinv. Qed.

(** [handleImprovise] says of its argument "it's a data URL and won't
    expire": every reference a reachable page hands to it, every
    displayed image and every history image is a [data:] URL, and none is
    an object URL. *)
Theorem generated_images_are_data_urls σ :
  reachable build σ →
  (∀ k snap imageUrl,
     pending σ !! k = Some (FetchCall snap imageUrl) →
     isDataURL imageUrl ∧ ∀ n, imageUrl ≠ blobURL n)
  ∧ (∀ item, item ∈ history (ui σ) →
             isDataURL (HistoryItem.generatedImage item))
  ∧ (generatedImage (ui σ) ≠ "" → isDataURL (generatedImage (ui σ))).
Proof.
  intros Hinv%reachable_invariant. destruct Hinv. split; [|split].
  - intros k snap imageUrl Hk.
    pose proof (Forall_lookup_1 _ _ _ _ inv_pending0 Hk) as Hdata.
    split; [exact Hdata|]. intros n ->. by apply blobURL_not_data in Hdata.
  - by apply Forall_forall.
  - intros Hne. by destruct inv_generated0.
Qed.

Lemma lookup_registerAll n files (m : gmap string File) k :
  registerAll n files m !! blobURL k
  = if decide (n ≤ k < n + length files) then files !! (k - n)
    else m !! blobURL k.
Proof.
  revert n m. induction files as [|file files IH]; intros n m.
  - cbn. by rewrite decide_False by lia.
  - cbn [registerAll length]. rewrite IH.
    destruct (decide (k = n)) as [->|Hne].
    + rewrite decide_False by lia. rewrite decide_True by lia.
      rewrite lookup_insert_eq. by rewrite Nat.sub_diag.
    + rewrite lookup_insert_ne by (intros ?%blobURL_inj; lia).
      destruct (decide (S n ≤ k < S n + length files)).
      * rewrite decide_True by lia.
        by replace (k - n) with (S (k - S n)) by lia.
      * by rewrite decide_False by lia.
Qed.

Lemma addImages_backed files σ :
  invariant σ → previewsBacked σ → previewsBacked (addImages files σ).
Proof.
  intros Hinv H. rewrite addImages_unfold by apply Hinv.
  destruct (take _ files) as [|f accepted'] eqn:Hacc; [done|].
  rewrite <- Hacc. clear Hacc f accepted'.
  set (accepted := take (3 - length (baseImages (ui σ))) files).
  destruct Hinv. intros j k. cbn.
  destruct (decide (j < length (baseImagePreviews (ui σ)))) as [Hlt|Hge].
  - rewrite lookup_app_l by done. intros Hj.
    rewrite lookup_app_l by lia. rewrite lookup_registerAll.
    rewrite decide_False; [by apply H|].
    intros [Hle _].
    pose proof (Forall_lookup_1 _ _ _ _ inv_previews_ok0 Hj) as [Hd|(k' & Hk' & Heq)].
    + by apply blobURL_not_data in Hd.
    + apply blobURL_inj in Heq. lia.
  - rewrite lookup_app_r by lia. intros Hj.
    apply list_lookup_fmap_Some in Hj as (n & Heq & Hn).
    apply blobURL_inj in Heq. subst n.
    apply lookup_seq in Hn as [-> Hlen].
    rewrite lookup_app_r by lia. rewrite lookup_registerAll.
    rewrite decide_True by lia. f_equal. lia.
Qed.

Lemma RemoveImage_backed σ i :
  invariant σ → previewsBacked σ → previewsBacked (step build σ (RemoveImage i)).
Proof.
  intros Hinv H. rewrite step_RemoveImage. destruct Hinv.
  destruct (decide (0 ≤ i < Z.of_nat (length (baseImagePreviews (ui σ))))%Z)
    as [Hi|Hi].
  - destruct (lookup_lt_is_Some_2 (baseImagePreviews (ui σ)) (Z.to_nat i))
      as [url Hurl]; [lia|].
    rewrite at_in_range, Hurl by done.
    intros j k. cbn. rewrite !filterIndex_remove, inv_lengths0.
    rewrite !decide_True by done. intros Hj.
    assert (Hne : blobURL k ≠ url).
    { intros <-.
      apply (NoDup_not_in_delete (baseImagePreviews (ui σ)) (Z.to_nat i)
               (blobURL k) inv_previews_nodup0 Hurl).
      by eapply list_elem_of_lookup_2. }
    rewrite lookup_delete_ne by done.
    destruct (decide (j < Z.to_nat i)).
    + rewrite list_lookup_delete_lt in Hj by done.
      rewrite list_lookup_delete_lt by done. by apply H.
    + rewrite list_lookup_delete_ge in Hj by lia.
      rewrite list_lookup_delete_ge by lia. by apply H.
  - rewrite at_out_of_range by done.
    intros j k. cbn. rewrite !filterIndex_remove, inv_lengths0.
    rewrite !decide_False by done. apply H.
Qed.

Lemma step_backed σ e :
  invariant σ → previewsBacked σ → previewsBacked (step build σ e).
Proof.
  intros Hinv H. destruct e; try exact H.
  - destruct files as [files|]; [|exact H]. by apply addImages_backed.
  - change (step build σ (Drop files))
      with (addImages files {| ui := withIsDragging false (ui σ);
                               browser := browser σ; pending := pending σ |}).
    apply addImages_backed; [by destruct Hinv|exact H].
  - by apply RemoveImage_backed.
  - unfold step, exec, dispatch. by destruct build.
  - unfold step, exec, dispatch, handleSubmit. by destruct (_ || _).
  - unfold step, exec, dispatch, handleImprovise. by destruct (isEmptyString _).
  - unfold step, exec, dispatch, handleImprovise.
    destruct (selectedHistoryItem (ui σ)); [|exact H].
    by destruct (isEmptyString _).
  - unfold step, exec, dispatch, handleClearHistory. by destruct confirmed.
  - unfold step, exec, dispatch. by destruct (history (ui σ) !! index).
  - destruct (pending σ !! k) as [[snap|snap imageUrl]|] eqn:Hk;
      [|unfold step, exec, dispatch; by rewrite Hk..].
    rewrite (step_GenerateContentSettles _ _ _ _ _ _ Hk).
    destruct o as [err|err|response]; [exact H|exact H|].
    destruct (firstInlineData (responseParts response)) as [inline|] eqn:Hfirst.
    + destruct (exec_resume_success build snap now response inline
                  (exec (dropPending k) σ) Hfirst)
        as (_ & _ & Hd & _).
      unfold draft in Hd. intros j n Hj.
      replace (baseImagePreviews _) with (@nil string) in Hj by congruence.
      by rewrite lookup_nil in Hj.
    + rewrite exec_resume_not_found by done. exact H.
  - destruct (pending σ !! k) as [[snap|snap imageUrl]|] eqn:Hk;
      [unfold step, exec, dispatch; by rewrite Hk| |unfold step, exec, dispatch; by rewrite Hk].
    rewrite (step_FetchSettles _ _ _ _ _ _ _ Hk).
    destruct o as [blob|err]; [|exact H].
    unfold exec at 1, handleImprovise_resume, bind. rewrite forEach_revoke.
    destruct Hinv.
    pose proof (Forall_lookup_1 _ _ _ _ inv_pending0 Hk) as Hdata. cbn in Hdata.
    intros j n.
    destruct (selectedHistoryItem snap); cbn; intros Hj;
      (destruct j as [|j]; [|by destruct j]);
      injection Hj as ->; by apply blobURL_not_data in Hdata.
Qed.

(** In every reachable session each preview that is an object URL is
    registered in the browser, for the image at the same position of the
    draft: no preview of the draft has been revoked. *)
Theorem previews_are_backed σ j k :
  reachable build σ →
  baseImagePreviews (ui σ) !! j = Some (blobURL k) →
  ∃ file, baseImages (ui σ) !! j = Some file
          ∧ objectURLs (browser σ) !! blobURL k = Some file.
Proof.
  intros [events <-] Hj.
  assert (H : ∀ σ, invariant σ → previewsBacked σ →
                   invariant (run build events σ)
                   ∧ previewsBacked (run build events σ)).
  { clear Hj. induction events as [|e events IH]; intros σ Hinv H; [done|].
    cbn. apply IH; [by apply step_invariant|by apply step_backed]. }
  destruct (H initialSession) as [Hinv Hbacked].
  { apply initial_invariant. }
  { intros j' k'. cbn. by rewrite lookup_nil. }
  destruct (lookup_lt_is_Some_2 (baseImages (ui (run build events initialSession))) j)
    as [file Hfile].
  { rewrite (inv_lengths _ Hinv). by eapply lookup_lt_Some. }
  exists file. split; [done|]. by rewrite (Hbacked _ _ Hj).
Qed.

End Reachable.

(** ** Requests and responses *)

Section Requests.

Variable build : Build.

Lemma resume_sentRequests snap now o σ :
  sentRequests (browser (exec (handleSubmit_resume build snap now o) σ))
  = sentRequests (browser σ)
    ++ match o with
       | ThrewBeforeCall _ => []
       | CallRejected _ | CallResponded _ => [generateContentRequest build snap]
       end.
Proof.
  destruct o as [err|err|response]; cbn.
  - by rewrite app_nil_r.
  - done.
  - destruct (firstInlineData (responseParts response)) as [inline|] eqn:Hfirst.
    + rewrite (exec_resume_found _ _ _ _ _ _ Hfirst).
      unfold exec, handleSubmit_resume, bind. cbn.
      unfold clearInputs, bind. rewrite forEach_revoke.
      by destruct build.
    + by rewrite exec_resume_not_found.
Qed.

(** A valid submit sends exactly one request when the call is made and
    none when an exception comes first; the request carries one inline
    part per base image, in order, with the MIME type and payload of the
    file, followed by one text part. *)
Theorem one_request_per_submit σ now o :
  baseImages (ui σ) ≠ [] → prompt (ui σ) ≠ "" →
  sentRequests (browser (submitAndSettle build now o σ))
  = sentRequests (browser σ)
    ++ match o with
       | ThrewBeforeCall _ => []
       | CallRejected _ | CallResponded _ =>
           [ {| GenAI.model := "gemini-2.5-flash-image-preview";
                GenAI.contents :=
                  ((λ file, {| GenAI.text := None;
                               GenAI.inlineData :=
                                 Some {| GenAI.data := file_base64 file;
                                         GenAI.mimeType := file_type file |} |})
                     <$> baseImages (ui σ))
                  ++ [ {| GenAI.text := Some (finalPrompt build (ui σ));
                          GenAI.inlineData := None |} ];
                GenAI.responseModalities := [GenAI.IMAGE; GenAI.TEXT] |} ]
       end.
Proof.
  intros Hi Hp. rewrite submitAndSettle_valid by done.
  by rewrite resume_sentRequests.
Qed.

(** The seed field never reaches the service: whatever is typed into it
    before the click, the request sent is the same. *)
Theorem seed_is_not_sent σ now o value :
  baseImages (ui σ) ≠ [] → prompt (ui σ) ≠ "" →
  sentRequests (browser (submitAndSettle build now o (step build σ (SeedChange value))))
  = sentRequests (browser (submitAndSettle build now o σ)).
Proof.
  intros Hi Hp. rewrite !submitAndSettle_valid by done.
  by rewrite !resume_sentRequests.
Qed.

(** In the build without aspect ratio the text part is the prompt as
    typed. *)
Lemma finalPrompt_classic snap : finalPrompt ClassicBuild snap = prompt snap.
Proof. done. Qed.

(** A response whose first candidate has no part with inline data is a
    soft failure, whatever the other candidates carry; so is a response
    without candidates, with an empty candidate list, or whose first
    candidate has no content or no parts. *)
Theorem unusable_responses σ now response :
  baseImages (ui σ) ≠ [] → prompt (ui σ) ≠ "" →
  GenAI.candidates response = None
  ∨ GenAI.candidates response = Some []
  ∨ (∃ candidate others,
       GenAI.candidates response = Some (candidate :: others)
       ∧ (GenAI.content candidate = None
          ∨ (∃ content, GenAI.content candidate = Some content
                        ∧ (GenAI.parts content = None
                           ∨ ∃ parts, GenAI.parts content = Some parts
                                      ∧ Forall (λ part, GenAI.inlineData part = None) parts)))) →
  let σ' := submitAndSettle build now (CallResponded response) σ in
  error (ui σ') = "The AI didn't return an image. Try a different prompt."
  ∧ draft (ui σ') = draft (ui σ)
  ∧ history (ui σ') = history (ui σ).
Proof.
  intros Hi Hp Hshape σ'. subst σ'.
  assert (Hnone : firstInlineData (responseParts response) = None).
  { unfold responseParts.
    destruct Hshape as [->| [->| (c & others & -> & [->| (ct & -> & [->| (ps & -> & Hps)])])]];
      try done.
    induction Hps as [|part ps Hpart _ IH]; [done|].
    by rewrite firstInlineData_cons, Hpart. }
  rewrite submitAndSettle_valid by done.
  by rewrite exec_resume_not_found.
Qed.

(** Only the first part with inline data counts: two responses that
    agree on it settle a submit in the same way. *)
Theorem first_inline_part_decides σ k now response1 response2 :
  firstInlineData (responseParts response1)
  = firstInlineData (responseParts response2) →
  step build σ (GenerateContentSettles k now (CallResponded response1))
  = step build σ (GenerateContentSettles k now (CallResponded response2)).
Proof.
  intros Heq.
  destruct (pending σ !! k) as [[snap|snap imageUrl]|] eqn:Hk;
    [|unfold step, exec, dispatch; by rewrite Hk..].
  rewrite !(step_GenerateContentSettles _ _ _ _ _ _ Hk).
  destruct (firstInlineData (responseParts response2)) as [inline|] eqn:H2.
  - rewrite (exec_resume_found _ _ _ _ _ _ Heq).
    by rewrite (exec_resume_found _ _ _ _ _ _ H2).
  - by rewrite !exec_resume_not_found.
Qed.

End Requests.

(** ** The submit button *)

Section SubmitButton.

Variable build : Build.

Lemma submitDisabled_false (s : State) :
  submitDisabled s = false ↔
  isLoading s = false ∧ baseImages s ≠ [] ∧ prompt s ≠ "".
Proof.
  unfold submitDisabled. rewrite !orb_false_iff, bool_decide_eq_false.
  split.
  - intros [[Hl Hi] Hp]. split; [done|]. split.
    + intros Heq. apply Hi. by rewrite Heq.
    + intros Heq. by rewrite Heq in Hp.
  - intros (Hl & Hi & Hp). split; [split; [done|]|].
    + by destruct (baseImages s).
    + by destruct (prompt s).
Qed.

(** While the page is loading, only the settlement of a call ends it. *)
Lemma step_keeps_loading σ e :
  invariant σ →
  isLoading (ui σ) = true →
  (∀ k now o, e ≠ GenerateContentSettles k now o) →
  isLoading (ui (step build σ e)) = true.
Proof.
  intros Hinv H Hnot. destruct e; try exact H.
  - destruct files as [files|]; [|exact H].
    change (step build σ (ImageChange (Some files))) with (addImages files σ).
    rewrite addImages_unfold by apply Hinv.
    by destruct (take _ files).
  - change (step build σ (Drop files))
      with (addImages files {| ui := withIsDragging false (ui σ);
                               browser := browser σ; pending := pending σ |}).
    rewrite addImages_unfold by apply Hinv.
    by destruct (take _ files).
  - by rewrite step_RemoveImage.
  - unfold step, exec, dispatch. by destruct build.
  - unfold step, exec, dispatch, handleSubmit. by destruct (_ || _).
  - unfold step, exec, dispatch, handleImprovise.
    by destruct (isEmptyString _).
  - unfold step, exec, dispatch, handleImprovise.
    destruct (selectedHistoryItem (ui σ)); [|exact H].
    by destruct (isEmptyString _).
  - unfold step, exec, dispatch, handleClearHistory. by destruct confirmed.
  - unfold step, exec, dispatch. by destruct (history (ui σ) !! index).
  - by destruct (Hnot k now o).
  - unfold step, exec, dispatch.
    destruct (pending σ !! k) as [[snap|snap imageUrl]|] eqn:Hk; try exact H.
    destruct o as [blob|err]; [|exact H].
    change (isLoading
              (ui (exec (handleImprovise_resume snap imageUrl now (Fetched blob))
                        (exec (dropPending k) σ))) = true).
    unfold exec at 1, handleImprovise_resume, bind. rewrite forEach_revoke.
    by destruct (selectedHistoryItem snap).
Qed.

(** The submit button.  A click on the enabled button suspends on the
    call without a validation error, and the button is disabled.  While
    the page is loading no event but the settlement of a call enables
    it.  When the call of the click settles, in whatever session [σ2]
    that happens, the page is no longer loading: after a failure the
    draft is the one of [σ2] and the button is enabled exactly when that
    draft has an image and a prompt; after a success the button is
    disabled.  With nothing between click and settlement, the button is
    enabled again after a failure. *)
Theorem submit_button_single_flight σ :
  submitDisabled (ui σ) = false →
  step build σ Submit = submitting σ
  ∧ submitDisabled (ui (step build σ Submit)) = true
  ∧ (∀ σ2 e,
       reachable build σ2 → isLoading (ui σ2) = true →
       (∀ k now o, e ≠ GenerateContentSettles k now o) →
       submitDisabled (ui (step build σ2 e)) = true)
  ∧ (∀ σ2 k now o,
       pending σ2 !! k = Some (GenerateContentCall (ui σ)) →
       let σ' := step build σ2 (GenerateContentSettles k now o) in
       isLoading (ui σ') = false
       ∧ pending σ' = delete k (pending σ2)
       ∧ (failed o →
          draft (ui σ') = draft (ui σ2)
          ∧ submitDisabled (ui σ')
            = bool_decide (length (baseImages (ui σ2)) = 0)
              || isEmptyString (prompt (ui σ2)))
       ∧ (¬ failed o → submitDisabled (ui σ') = true))
  ∧ (∀ now o,
       let σ' := submitAndSettle build now o σ in
       isLoading (ui σ') = false
       ∧ pending σ' = pending σ
       ∧ (failed o → submitDisabled (ui σ') = false)
       ∧ (¬ failed o → submitDisabled (ui σ') = true)).
Proof.
  intros (Hl & Hi & Hp)%submitDisabled_false.
  rewrite step_Submit_valid by done.
  split; [done|]. split; [done|]. split; [|split].
  - intros σ2 e Hreach Hload Hnot. unfold submitDisabled.
    by rewrite (step_keeps_loading σ2 e (reachable_invariant build σ2 Hreach) Hload Hnot).
  - intros σ2 k now o Hk σ'. subst σ'.
    rewrite (step_GenerateContentSettles build _ _ _ _ _ Hk).
    destruct o as [err|err|response].
    + repeat split; try done; intros Hnot; by destruct Hnot.
    + repeat split; try done; intros Hnot; by destruct Hnot.
    + destruct (firstInlineData (responseParts response)) as [inline|] eqn:Hfirst.
      * destruct (exec_resume_success build (ui σ) now response inline
                    (exec (dropPending k) σ2) Hfirst)
          as (_ & _ & Hd & Hload & _ & _ & _ & _ & _ & Hpend).
        split; [done|]. split; [done|]. split.
        -- cbn. by rewrite Hfirst.
        -- intros _. unfold submitDisabled. unfold draft in Hd.
           replace (baseImages _) with (@nil File) by congruence.
           by rewrite orb_true_r.
      * rewrite exec_resume_not_found by done.
        repeat split; try done; intros Hnot; by destruct Hnot.
  - intros now o σ'. subst σ'.
    rewrite submitAndSettle_valid by done.
    destruct o as [err|err|response].
    + repeat split; try done; try (intros Hnot; by destruct Hnot);
        intros _; by apply submitDisabled_false.
    + repeat split; try done; try (intros Hnot; by destruct Hnot);
        intros _; by apply submitDisabled_false.
    + destruct (firstInlineData (responseParts response)) as [inline|] eqn:Hfirst.
      * destruct (exec_resume_success build (ui σ) now response inline
                    {| ui := withGeneratedImage "" (withError "" (withIsLoading true (ui σ)));
                       browser := browser σ; pending := pending σ |} Hfirst)
          as (_ & _ & Hd & Hload & _ & _ & _ & _ & _ & Hpend).
        split; [done|]. split; [done|]. split.
        -- cbn. by rewrite Hfirst.
        -- intros _. unfold submitDisabled. unfold draft in Hd.
           replace (baseImages _) with (@nil File) by congruence.
           by rewrite orb_true_r.
      * rewrite exec_resume_not_found by done.
        repeat split; try done; try (intros Hnot; by destruct Hnot);
          intros _; by apply submitDisabled_false.
Qed.

End SubmitButton.

(** ** History, detail view and downloads *)

Section HistoryUse.

Variable build : Build.

Lemma isDataURL_not_empty u : isDataURL u → isEmptyString u = false.
Proof. by intros [rest ->]. Qed.

Lemma exec_improvise_fetched snap imageUrl now blob σ :
  exec (handleImprovise_resume snap imageUrl now (Fetched blob)) σ
  = {| ui := withActiveTab generator
               (withSelectedHistoryItem
                  (match selectedHistoryItem snap with
                   | Some _ => None
                   | None => selectedHistoryItem (ui σ)
                   end)
                  (withError ""
                     (withGeneratedImage ""
                        (withBaseImagePreviews (λ _, [imageUrl])
                           (withBaseImages
                              (λ _, [ {| file_name := "improvised-" +:+ pretty now +:+ ".png";
                                         file_type := blob_type blob;
                                         file_base64 := blob_base64 blob |} ])
                              (ui σ))))));
       browser := withObjectURLs (revokeAll (baseImagePreviews snap)) (browser σ);
       pending := pending σ |}.
Proof.
  unfold exec, handleImprovise_resume, bind. rewrite forEach_revoke.
  by destruct (selectedHistoryItem snap).
Qed.

(** Every item of the history can be improvised on: opening the [i]-th
    item, clicking improvise and a successful conversion leave a draft
    whose only preview is the image of that item, close the detail view
    and show the generator tab; the history is as before. *)
Theorem improvise_from_history σ i item now blob :
  reachable build σ →
  history (ui σ) !! i = Some item →
  let σ' := run build [ HistoryItemClick i; ImproviseSelected;
                        FetchSettles (length (pending σ)) now (Fetched blob) ] σ in
  baseImagePreviews (ui σ') = [ HistoryItem.generatedImage item ]
  ∧ baseImages (ui σ')
    = [ {| file_name := "improvised-" +:+ pretty now +:+ ".png";
           file_type := blob_type blob;
           file_base64 := blob_base64 blob |} ]
  ∧ selectedHistoryItem (ui σ') = None
  ∧ activeTab (ui σ') = generator
  ∧ generatedImage (ui σ') = ""
  ∧ history (ui σ') = history (ui σ)
  ∧ pending σ' = pending σ.
Proof.
  intros Hinv%reachable_invariant Hitem σ'. subst σ'.
  assert (Hdata : isEmptyString (HistoryItem.generatedImage item) = false).
  { apply isDataURL_not_empty.
    by apply (Forall_lookup_1 _ _ _ _ (inv_history_data _ Hinv) Hitem). }
  set (σ1 := {| ui := withSelectedHistoryItem (Some item) (ui σ);
                browser := browser σ; pending := pending σ |}).
  assert (H1 : step build σ (HistoryItemClick i) = σ1).
  { unfold step, exec, dispatch. by rewrite Hitem. }
  set (σ2 := {| ui := ui σ1; browser := browser σ;
                pending := pending σ
                           ++ [FetchCall (ui σ1) (HistoryItem.generatedImage item)] |}).
  assert (H2 : step build σ1 ImproviseSelected = σ2).
  { unfold step, exec, dispatch, handleImprovise. cbn. by rewrite Hdata. }
  cbn [run foldl]. rewrite H1, H2.
  rewrite (step_FetchSettles build σ2 _ _ _ (ui σ1) (HistoryItem.generatedImage item))
    by apply lookup_last_app.
  rewrite exec_improvise_fetched. cbn.
  by rewrite delete_last_app.
Qed.

(** Every item of the history can be downloaded: its image is never the
    empty reference, so [handleDownload] starts exactly one download, of
    that image, under a name made of the time of the click. *)
Theorem download_from_history σ item now :
  reachable build σ →
  item ∈ history (ui σ) →
  handleDownload (HistoryItem.generatedImage item) now
  = [ {| link_href := HistoryItem.generatedImage item;
         link_download := "re-imagined-" +:+ pretty now +:+ ".png" |} ].
Proof.
  intros Hinv%reachable_invariant Hitem. unfold handleDownload.
  rewrite isDataURL_not_empty; [done|].
  pose proof (inv_history_data _ Hinv) as Hall.
  rewrite Forall_forall in Hall. by apply Hall.
Qed.

(** Clearing the history does not cancel a generation in flight and does
    not close the detail view: after a confirmed clear the history is
    empty and the item shown in the detail view is still shown; when the
    call in flight then succeeds, its item is the only one of the
    history.  An unconfirmed clear changes nothing. *)
Theorem clear_history_in_flight σ k snap now response inline :
  pending σ !! k = Some (GenerateContentCall snap) →
  firstInlineData (responseParts response) = Some inline →
  let σ1 := step build σ (ClearHistory true) in
  let σ2 := step build σ1 (GenerateContentSettles k now (CallResponded response)) in
  history (ui σ1) = []
  ∧ selectedHistoryItem (ui σ1) = selectedHistoryItem (ui σ)
  ∧ draft (ui σ1) = draft (ui σ)
  ∧ pending σ1 = pending σ
  ∧ (∃ item, history (ui σ2) = [item] ∧ HistoryItem.prompt item = prompt snap)
  ∧ step build σ (ClearHistory false) = σ.
Proof.
  intros Hk Hfirst σ1 σ2. subst σ1 σ2.
  repeat (split; [done|]). split; [|done].
  rewrite (step_GenerateContentSettles build _ k now _ snap) by exact Hk.
  destruct (exec_resume_success build snap now response inline
              (exec (dropPending k) (step build σ (ClearHistory true))) Hfirst)
    as (Hh & _).
  rewrite Hh. by eexists.
Qed.

Lemma historyId_inj now1 now2 : historyId now1 = historyId now2 → now1 = now2.
Proof.
  unfold historyId. intros H.
  apply (inj (String.append "history-")) in H.
  by apply (inj pretty) in H.
Qed.

Lemma step_history_ids σ e :
  (HistoryItem.id <$> history (ui (step build σ e)))
  `sublist_of` (historyId <$> stamps e) ++ (HistoryItem.id <$> history (ui σ)).
Proof.
  destruct e; try done.
  - destruct files as [files|]; [|done].
    change (step build σ (ImageChange (Some files))) with (addImages files σ).
    unfold addImages, exec, processFiles.
    destruct (decide _); [done|]. unfold bind. cbn -[mapEff].
    by rewrite mapEff_createObjectURL.
  - change (step build σ (Drop files))
      with (addImages files {| ui := withIsDragging false (ui σ);
                               browser := browser σ; pending := pending σ |}).
    unfold addImages, exec, processFiles.
    destruct (decide _); [done|]. unfold bind. cbn -[mapEff].
    by rewrite mapEff_createObjectURL.
  - by rewrite step_RemoveImage.
  - unfold step, exec, dispatch. by destruct build.
  - unfold step, exec, dispatch, handleSubmit. by destruct (_ || _).
  - unfold step, exec, dispatch, handleImprovise. by destruct (isEmptyString _).
  - unfold step, exec, dispatch, handleImprovise.
    destruct (selectedHistoryItem (ui σ)); [|done].
    by destruct (isEmptyString _).
  - unfold step, exec, dispatch, handleClearHistory.
    destruct confirmed; [apply sublist_nil_l|done].
  - unfold step, exec, dispatch. by destruct (history (ui σ) !! index).
  - cbn [stamps fmap list_fmap app].
    destruct (pending σ !! k) as [[snap|snap imageUrl]|] eqn:Hk;
      [|unfold step, exec, dispatch; rewrite Hk; by apply sublist_cons..].
    rewrite (step_GenerateContentSettles _ _ _ _ _ _ Hk).
    destruct o as [err|err|response]; [by apply sublist_cons..|].
    destruct (firstInlineData (responseParts response)) as [inline|] eqn:Hfirst.
    + destruct (exec_resume_success build snap now response inline
                  (exec (dropPending k) σ) Hfirst) as (Hh & _).
      rewrite Hh. cbn. apply sublist_skip. rewrite fmap_take. apply sublist_take.
    + rewrite exec_resume_not_found by done. by apply sublist_cons.
  - destruct (pending σ !! k) as [[snap|snap imageUrl]|] eqn:Hk;
      [unfold step, exec, dispatch; by rewrite Hk| |unfold step, exec, dispatch; by rewrite Hk].
    rewrite (step_FetchSettles _ _ _ _ _ _ _ Hk).
    destruct o as [blob|err]; [|done].
    unfold exec at 1, handleImprovise_resume, bind. rewrite forEach_revoke.
    by destruct (selectedHistoryItem snap).
Qed.

Lemma run_history_ids events σ :
  (HistoryItem.id <$> history (ui (run build events σ)))
  `sublist_of` (historyId <$> reverse (settlementTimes events))
               ++ (HistoryItem.id <$> history (ui σ)).
Proof.
  revert σ. induction events as [|e events IH]; intros σ; [done|].
  cbn [run foldl]. etrans; [apply IH|].
  unfold settlementTimes. cbn [mbind list_bind].
  rewrite reverse_app, fmap_app, <- (assoc_L (++)).
  apply sublist_app; [done|].
  etrans; [apply step_history_ids|].
  apply sublist_app; [|done].
  by destruct e.
Qed.

(** History items are keyed by [id].  If no two submit continuations of a
    run read the same time, the ids of the history are pairwise
    distinct. *)
Theorem history_ids_distinct events :
  NoDup (settlementTimes events) →
  NoDup (HistoryItem.id <$> history (ui (run build events initialSession))).
Proof.
  intros Hnd. eapply sublist_NoDup; [|apply run_history_ids].
  cbn. rewrite app_nil_r.
  apply NoDup_fmap_2_strong; [|by rewrite reverse_Permutation].
  intros a b _ _. apply historyId_inj.
Qed.

End HistoryUse.

(** ** Theme and drag state *)

Section Presentation.

Variable build : Build.

(** Only the theme button changes the theme, and it changes nothing but
    the theme: no other event touches it, and two clicks bring back the
    session as it was. *)
Theorem theme_changes_only_by_toggle σ :
  (∀ e, e ≠ ThemeToggle → theme (ui (step build σ e)) = theme (ui σ))
  ∧ theme (ui (step build σ ThemeToggle)) ≠ theme (ui σ)
  ∧ step build (step build σ ThemeToggle) ThemeToggle = σ.
Proof.
  split; [|split].
  - intros e He. destruct e; try done.
    + destruct files as [files|]; [|done].
      change (step build σ (ImageChange (Some files))) with (addImages files σ).
      unfold addImages, exec, processFiles.
      destruct (decide _); [done|]. unfold bind. cbn -[mapEff].
      by rewrite mapEff_createObjectURL.
    + change (step build σ (Drop files))
        with (addImages files {| ui := withIsDragging false (ui σ);
                                 browser := browser σ; pending := pending σ |}).
      unfold addImages, exec, processFiles.
      destruct (decide _); [done|]. unfold bind. cbn -[mapEff].
      by rewrite mapEff_createObjectURL.
    + by rewrite step_RemoveImage.
    + unfold step, exec, dispatch. by destruct build.
    + unfold step, exec, dispatch, handleSubmit. by destruct (_ || _).
    + unfold step, exec, dispatch, handleImprovise. by destruct (isEmptyString _).
    + unfold step, exec, dispatch, handleImprovise.
      destruct (selectedHistoryItem (ui σ)); [|done].
      by destruct (isEmptyString _).
    + unfold step, exec, dispatch, handleClearHistory. by destruct confirmed.
    + unfold step, exec, dispatch. by destruct (history (ui σ) !! index).
    + destruct (pending σ !! k) as [[snap|snap imageUrl]|] eqn:Hk;
        [|unfold step, exec, dispatch; by rewrite Hk..].
      rewrite (step_GenerateContentSettles _ _ _ _ _ _ Hk).
      destruct o as [err|err|response]; [done..|].
      destruct (firstInlineData (responseParts response)) as [inline|] eqn:Hfirst.
      * by destruct (exec_resume_success build snap now response inline
                       (exec (dropPending k) σ) Hfirst)
          as (_ & _ & _ & _ & _ & _ & _ & -> & _).
      * by rewrite exec_resume_not_found.
    + destruct (pending σ !! k) as [[snap|snap imageUrl]|] eqn:Hk;
        [unfold step, exec, dispatch; by rewrite Hk| |unfold step, exec, dispatch; by rewrite Hk].
      rewrite (step_FetchSettles _ _ _ _ _ _ _ Hk).
      destruct o as [blob|err]; [|done].
      by rewrite exec_improvise_fetched.
  - unfold step, exec, dispatch. cbn. by destruct (theme (ui σ)).
  - destruct σ as [[? ? ? ? ? ? ? ? ? ? ? th ?] ? ?]. by destruct th.
Qed.

(** Dropping files ends the drag state and otherwise does what choosing
    the same files in the file picker does. *)
Theorem drop_is_choose files σ :
  let dropped := step build σ (Drop files) in
  let chosen := step build σ (ImageChange (Some files)) in
  isDragging (ui dropped) = false
  ∧ ui dropped = withIsDragging false (ui chosen)
  ∧ browser dropped = browser chosen
  ∧ pending dropped = pending chosen.
Proof.
  intros dropped chosen. subst dropped chosen.
  change (step build σ (Drop files))
    with (addImages files {| ui := withIsDragging false (ui σ);
                             browser := browser σ; pending := pending σ |}).
  change (step build σ (ImageChange (Some files))) with (addImages files σ).
  unfold addImages, exec, processFiles. cbn [ui baseImages withIsDragging].
  destruct (decide _); [done|]. unfold bind. cbn -[mapEff].
  by rewrite !mapEff_createObjectURL.
Qed.

(** Adding one image to a draft with room and removing it again gives
    back the images and previews of the draft; the URL made for the
    image is revoked. *)
Theorem add_then_remove file σ :
  length (baseImages (ui σ)) = length (baseImagePreviews (ui σ)) →
  length (baseImages (ui σ)) < 3 →
  let σ' := step build (addImages [file] σ)
                 (RemoveImage (Z.of_nat (length (baseImages (ui σ))))) in
  baseImages (ui σ') = baseImages (ui σ)
  ∧ baseImagePreviews (ui σ') = baseImagePreviews (ui σ)
  ∧ objectURLs (browser σ') !! blobURL (urlsIssued (browser σ)) = None.
Proof.
  intros Hlen Hroom σ'. subst σ'.
  rewrite addImages_unfold by lia.
  assert (Htake : take (3 - length (baseImages (ui σ))) [file] = [file]).
  { destruct (3 - length (baseImages (ui σ))) eqn:Hroom'; [exfalso; lia|].
    cbn. by rewrite take_nil. }
  rewrite Htake.
  rewrite step_RemoveImage. cbn.
  rewrite !filterIndex_remove, !length_app. cbn [length].
  rewrite !decide_True by lia.
  rewrite Nat2Z.id. rewrite Hlen at 2.
  rewrite !delete_last_app.
  split; [done|]. split; [done|].
  rewrite at_in_range by (rewrite length_app; cbn [length]; lia).
  rewrite Nat2Z.id, Hlen, lookup_last_app. cbn.
  apply lookup_delete_eq.
Qed.

End Presentation.

(** ** The further properties at sample sessions *)

Lemma failed_submit_keeps_current_state_witness :
  let σ := inFlight ClassicBuild in
  let σ' := step ClassicBuild σ
              (GenerateContentSettles 0 1800 (CallRejected (ErrorObject "offline"))) in
  baseImages (ui σ') = [beachPhoto; towerPhoto]
  ∧ prompt (ui σ') = "sunrise"
  ∧ objectURLs (browser σ') = objectURLs (browser σ).
Proof.
  intros σ σ'.
  destruct (failed_submit_keeps_current_state ClassicBuild σ 0 1800
              (CallRejected (ErrorObject "offline")) (ui (sunsetDraft ClassicBuild)))
    as ((message & Hui) & Hurls & _).
  - by vm_compute.
  - exact I.
  - subst σ'. rewrite Hui. split; [by vm_compute|]. split; [by vm_compute|exact Hurls].
Defined.

Lemma late_success_uses_closure_witness :
  let σ := inFlight ClassicBuild in
  let σ' := step ClassicBuild σ
              (GenerateContentSettles 0 1800
                 (CallResponded (imageResponse "image/png" "X"))) in
  (∃ item, history (ui σ') = item :: take 19 (history (ui σ))
           ∧ HistoryItem.prompt item = "sunset"
           ∧ HistoryItem.seed item = "")
  ∧ draft (ui σ') = ([], [], "", "")
  ∧ objectURLs (browser σ') !! "blob:0" = None
  ∧ objectURLs (browser σ') !! "blob:1" = Some towerPhoto.
Proof.
  intros σ σ'.
  destruct (late_success_uses_closure ClassicBuild σ 0 1800
              (imageResponse "image/png" "X")
              {| GenAI.data := "X"; GenAI.mimeType := "image/png" |}
              (ui (sunsetDraft ClassicBuild)))
    as (Hitem & Hdraft & Hrevoked & Hkept).
  - by vm_compute.
  - by vm_compute.
  - subst σ'. split; [exact Hitem|]. split; [exact Hdraft|]. split.
    + apply Hrevoked. vm_compute. left.
    + rewrite (Hkept "blob:1").
      * by vm_compute.
      * vm_compute. right. left.
      * vm_compute. intros Hin. inversion Hin as [|? ? ? Hin']. inversion Hin'.
Defined.

Lemma draft_well_formed_witness :
  length (baseImages (ui (castleDraft ClassicBuild))) = 2
  ∧ NoDup (baseImagePreviews (ui (castleDraft ClassicBuild))).
Proof.
  destruct (draft_well_formed ClassicBuild (castleDraft ClassicBuild))
    as (_ & _ & Hnd).
  - exists castleEvents. reflexivity.
  - split; [by vm_compute|exact Hnd].
Defined.

Lemma generated_images_are_data_urls_witness :
  isDataURL "data:image/png;base64,X".
Proof.
  assert (Hreach : reachable ClassicBuild (improvising ClassicBuild)).
  { exists improvisingEvents. unfold improvising. exact eq_refl. }
  apply (proj1 (generated_images_are_data_urls ClassicBuild
                  (improvising ClassicBuild) Hreach)
           0 (ui (opened ClassicBuild)) "data:image/png;base64,X").
  by vm_compute.
Defined.

Lemma reachable_image_or_draft_witness :
  baseImages (ui (browsing ClassicBuild)) = []
  ∧ generatedImage (ui (castleDraft ClassicBuild)) = "".
Proof.
  split.
  - destruct (reachable_image_or_draft ClassicBuild (browsing ClassicBuild))
      as [H|H].
    + exists browsingEvents. reflexivity.
    + exact H.
    + vm_compute in H. discriminate H.
  - destruct (reachable_image_or_draft ClassicBuild (castleDraft ClassicBuild))
      as [H|H].
    + exists castleEvents. reflexivity.
    + vm_compute in H. discriminate H.
    + exact H.
Defined.

Lemma previews_are_backed_witness :
  ∃ file, baseImages (ui (castleDraft ClassicBuild)) !! 1 = Some file
          ∧ objectURLs (browser (castleDraft ClassicBuild)) !! blobURL 1 = Some file.
Proof.
  apply (previews_are_backed ClassicBuild (castleDraft ClassicBuild) 1 1).
  - exists castleEvents. reflexivity.
  - by vm_compute.
Defined.

Lemma one_request_per_submit_witness :
  length (sentRequests (browser (submitAndSettle ClassicBuild 1700
                                   (CallResponded textResponse)
                                   (sunsetDraft ClassicBuild)))) = 1
  ∧ sentRequests (browser (submitAndSettle ClassicBuild 1700
                             (ThrewBeforeCall OtherValue)
                             (sunsetDraft ClassicBuild))) = [].
Proof.
  split.
  - rewrite (one_request_per_submit ClassicBuild (sunsetDraft ClassicBuild) 1700
               (CallResponded textResponse)); [by vm_compute|by vm_compute..].
  - rewrite (one_request_per_submit ClassicBuild (sunsetDraft ClassicBuild) 1700
               (ThrewBeforeCall OtherValue)); [by vm_compute|by vm_compute..].
Defined.

Lemma seed_is_not_sent_witness :
  sentRequests (browser (submitAndSettle ClassicBuild 1700
                           (CallResponded textResponse)
                           (step ClassicBuild (sunsetDraft ClassicBuild)
                                 (SeedChange "42"))))
  = sentRequests (browser (submitAndSettle ClassicBuild 1700
                             (CallResponded textResponse)
                             (sunsetDraft ClassicBuild))).
Proof.
  apply (seed_is_not_sent ClassicBuild (sunsetDraft ClassicBuild) 1700
           (CallResponded textResponse) "42"); by vm_compute.
Defined.

Lemma unusable_responses_witness :
  let σ := sunsetDraft ClassicBuild in
  let σ' := submitAndSettle ClassicBuild 1700
              (CallResponded secondCandidateResponse) σ in
  error (ui σ') = "The AI didn't return an image. Try a different prompt."
  ∧ draft (ui σ') = draft (ui σ)
  ∧ history (ui σ') = history (ui σ).
Proof.
  apply (unusable_responses ClassicBuild (sunsetDraft ClassicBuild) 1700
           secondCandidateResponse).
  - by vm_compute.
  - by vm_compute.
  - right. right. eexists _, _. split; [reflexivity|].
    right. eexists. split; [reflexivity|].
    right. eexists. split; [reflexivity|].
    repeat constructor.
Defined.

Lemma first_inline_part_decides_witness :
  step ClassicBuild (busy ClassicBuild)
       (GenerateContentSettles 0 1800 (CallResponded twoImagesResponse))
  = step ClassicBuild (busy ClassicBuild)
         (GenerateContentSettles 0 1800 (CallResponded (imageResponse "image/png" "X"))).
Proof.
  apply (first_inline_part_decides ClassicBuild (busy ClassicBuild) 0 1800
           twoImagesResponse (imageResponse "image/png" "X")).
  by vm_compute.
Defined.

Lemma submit_button_single_flight_witness :
  let σ := sunsetDraft ClassicBuild in
  let rejected :=
    GenerateContentSettles 0 1700 (CallRejected (ErrorObject "quota exceeded")) in
  submitDisabled (ui (step ClassicBuild σ Submit)) = true
  ∧ submitDisabled (ui (step ClassicBuild (step ClassicBuild σ Submit) (RemoveImage 0))) = true
  ∧ submitDisabled (ui (step ClassicBuild (run ClassicBuild [Submit; RemoveImage 0] σ) rejected)) = true
  ∧ submitDisabled (ui (step ClassicBuild (run ClassicBuild [Submit] σ) rejected)) = false
  ∧ submitDisabled (ui (submitAndSettle ClassicBuild 1700
                          (CallResponded (imageResponse "image/png" "X")) σ)) = true.
Proof.
  intros σ rejected.
  destruct (submit_button_single_flight ClassicBuild σ)
    as (_ & Hclick & Hbusy & Hlate & Hnow).
  { by vm_compute. }
  split; [exact Hclick|]. split; [|split; [|split]].
  - apply (Hbusy (step ClassicBuild σ Submit) (RemoveImage 0)).
    + exists (sunsetEvents ++ [Submit]). vm_compute. reflexivity.
    + by vm_compute.
    + intros k now o. discriminate.
  - destruct (Hlate (run ClassicBuild [Submit; RemoveImage 0] σ) 0 1700%Z
                (CallRejected (ErrorObject "quota exceeded")))
      as (_ & _ & Hfail & _).
    { by vm_compute. }
    destruct (Hfail I) as [_ Hbutton].
    subst rejected. rewrite Hbutton. by vm_compute.
  - destruct (Hlate (run ClassicBuild [Submit] σ) 0 1700%Z
                (CallRejected (ErrorObject "quota exceeded")))
      as (_ & _ & Hfail & _).
    { by vm_compute. }
    destruct (Hfail I) as [_ Hbutton].
    subst rejected. rewrite Hbutton. by vm_compute.
  - destruct (Hnow 1700%Z (CallResponded (imageResponse "image/png" "X")))
      as (_ & _ & _ & Hok).
    apply Hok. vm_compute. discriminate.
Defined.

Lemma improvise_from_history_witness :
  let σ := browsing ClassicBuild in
  let σ' := run ClassicBuild
              [ HistoryItemClick 0; ImproviseSelected;
                FetchSettles 0 1900 (Fetched (mkBlob "image/png" "X")) ] σ in
  baseImagePreviews (ui σ') = [ "data:image/png;base64,X" ]
  ∧ activeTab (ui σ') = generator
  ∧ length (history (ui σ')) = 1.
Proof.
  intros σ σ'.
  destruct (history (ui σ) !! 0) as [item|] eqn:Hitem; [|vm_compute in Hitem; discriminate Hitem].
  destruct (improvise_from_history ClassicBuild σ 0 item 1900 (mkBlob "image/png" "X"))
    as (Hp & _ & _ & Htab & _ & Hh & _).
  - exists browsingEvents. reflexivity.
  - exact Hitem.
  - split; [|split; [exact Htab|]].
    + transitivity [HistoryItem.generatedImage item]; [exact Hp|].
      vm_compute in Hitem. injection Hitem as <-. by vm_compute.
    + transitivity (length (history (ui σ))); [by rewrite <- Hh|by vm_compute].
Defined.

Lemma download_from_history_witness :
  handleDownload "data:image/png;base64,X" 1900
  = [ {| link_href := "data:image/png;base64,X";
         link_download := "re-imagined-1900.png" |} ].
Proof.
  assert (Hreach : reachable ClassicBuild (browsing ClassicBuild)).
  { exists browsingEvents. unfold browsing. exact eq_refl. }
  destruct (history (ui (browsing ClassicBuild)) !! 0) as [item|] eqn:Hitem;
    [|vm_compute in Hitem; discriminate Hitem].
  pose proof (download_from_history ClassicBuild (browsing ClassicBuild) item 1900
                Hreach (list_elem_of_lookup_2 _ _ _ Hitem)) as H.
  vm_compute in Hitem. injection Hitem as <-. exact H.
Defined.

Lemma clear_history_in_flight_witness :
  let σ := busy ClassicBuild in
  let σ1 := step ClassicBuild σ (ClearHistory true) in
  let σ2 := step ClassicBuild σ1
              (GenerateContentSettles 0 1800
                 (CallResponded (imageResponse "image/png" "Y"))) in
  length (history (ui σ)) = 1
  ∧ history (ui σ1) = []
  ∧ ∃ item, history (ui σ2) = [item] ∧ HistoryItem.prompt item = "sunset".
Proof.
  intros σ σ1 σ2.
  destruct (clear_history_in_flight ClassicBuild σ 0
              (ui (secondDraft ClassicBuild)) 1800
              (imageResponse "image/png" "Y")
              {| GenAI.data := "Y"; GenAI.mimeType := "image/png" |})
    as (Hclear & _ & _ & _ & Hitem & _).
  - by vm_compute.
  - by vm_compute.
  - split; [by vm_compute|]. split; [exact Hclear|exact Hitem].
Defined.

Lemma history_ids_distinct_witness :
  NoDup (HistoryItem.id <$> history (ui (fullHistory ClassicBuild))).
Proof.
  apply (history_ids_distinct ClassicBuild fullHistoryEvents).
  apply (bool_decide_unpack _). by vm_compute.
Defined.

Lemma add_then_remove_witness :
  let σ := castleDraft ClassicBuild in
  let σ' := step ClassicBuild (addImages [beachPhoto] σ) (RemoveImage 2) in
  baseImages (ui σ') = [towerPhoto; moatPhoto]
  ∧ baseImagePreviews (ui σ') = ["blob:0"; "blob:1"]
  ∧ objectURLs (browser σ') !! "blob:2" = None.
Proof.
  apply (add_then_remove ClassicBuild beachPhoto (castleDraft ClassicBuild)).
  - by vm_compute.
  - vm_compute. lia.
Defined.
